(** * Bake by Energy Price: a shallow embedding of [Streamlit/app.py]

    The script loads an hourly price table, selects one market and one
    calendar day, converts the prices to EUR/kWh, and derives a baking
    recommendation, a percent delta and two ranked tables.

    Numbers.  Prices are modelled as exact rationals ([Qc], canonical
    fractions, so that equality of prices is Leibniz equality).  The
    rounding of binary floating point is not modelled; a missing cell
    (pandas' NaN) is an absent key of the row.

    Timestamps are integers (nanoseconds since the epoch, naive local
    time, as pandas stores [datetime64[ns]]).

    Library calls (pandas sorting, [quantile], [nsmallest], [nlargest],
    [mean]) are modelled by their documented meaning. *)

From Stdlib Require Import QArith Qcanon Qround Lqa.
From stdpp Require Import base decidable numbers list sorting gmap strings.

Local Open Scope Z_scope.
Local Open Scope Qc_scope.

(** ** Outcomes of a run *)

(** [st.error(...); st.stop()] ends the run with a message; an uncaught
    Python exception ends it with a traceback.  The first two names are
    the ones the specification gives to the two stops of the script. *)
Inductive Exn : Type :=
  | DataNotFoundError   (* gold.csv is missing: lines 32-34 *)
  | EmptySliceError     (* today.empty: lines 62-64 *)
  | KeyError            (* .loc[..., [country]] on an unknown column *)
  | IndexError          (* .iloc[0] on an empty frame *)
  | ZeroDivisionError.  (* float / 0.0 *)

Inductive result (A : Type) : Type :=
  | Ok (a : A)
  | Err (e : Exn).
Arguments Ok {A} a.
Arguments Err {A} e.

Global Instance result_ret : MRet result := fun A a => Ok a.
Global Instance result_bind : MBind result := fun A B k r =>
  match r with
  | Ok a => k a
  | Err e => Err e
  end.

(** ** Numbers *)

Definition Qc_of_nat (n : nat) : Qc := Qc_of_Z (Z.of_nat n).

(** Decimal literals of the script. *)
Definition thousand : Qc := Qc_of_Z 1000.
Definition hundred : Qc := Qc_of_Z 100.
Definition q33 : Qc := Q2Qc (33 # 100).
Definition q66 : Qc := Q2Qc (66 # 100).

(** Python's [float / float]: raises [ZeroDivisionError] on a zero
    divisor. *)
Definition py_div (a b : Qc) : result Qc :=
  if decide (b = 0) then Err ZeroDivisionError else Ok (a / b).

Definition Qc_leb (x y : Qc) : bool := bool_decide (x ≤ y).
Definition Qc_geb (x y : Qc) : bool := bool_decide (y ≤ x).

(** ** Stable sorting by a boolean order *)

(** The model of [sort_values], [sort_index] and of the sorting inside
    [quantile], [nsmallest] and [nlargest].  Where pandas leaves the
    order of equal keys open ([sort_values] and [sort_index] by
    default), the rows keep their input order here, and nothing proved
    below depends on that choice. *)

Section sort_by.
Context {A : Type} (leb : A -> A -> bool).

(** [x] is placed before the first element it is not above, so an
    element that came first in the input stays first among ties. *)
Fixpoint insert_by (x : A) (l : list A) : list A :=
  match l with
  | [] => [x]
  | y :: l' => if leb x y then x :: l else y :: insert_by x l'
  end.

Fixpoint sort_by (l : list A) : list A :=
  match l with
  | [] => []
  | x :: l' => insert_by x (sort_by l')
  end.
End sort_by.

(** ** Tables *)

(** A row of a frame: its timestamp and its numeric cells by column
    name.  A missing cell is an absent key. *)
Record Row : Type := { date_cet : Z; cells : gmap string Qc }.

Global Instance Row_eq_dec : EqDecision Row.
Proof. solve_decision. Defined.

(** A frame: the names of its market columns (every column but
    [date_cet]) and its rows in order. *)
Record DataFrame : Type := { columns : list string; rows : list Row }.

(** What [pd.read_csv] hands over: the [date_cet] cell is still text. *)
Record RawRow : Type := { raw_date_cet : string; raw_cells : gmap string Qc }.
Record RawFrame : Type := { raw_columns : list string; raw_rows : list RawRow }.

(** A cell read as a number.  Every read of the script goes to a cell
    that is present (see [to_kwh_has_price_kwh]); pandas would give NaN
    for an absent one, which this embedding does not have. *)
Definition cell (c : string) (r : Row) : Qc := default 0 (cells r !! c).

(** The values of a column that are present, in row order: what
    [mean] and [quantile] work on (both skip NaN). *)
Definition values (c : string) (df : list Row) : list Qc :=
  omap (fun r => cells r !! c) df.

Definition date_leb (r1 r2 : Row) : bool := bool_decide (date_cet r1 ≤ date_cet r2)%Z.

(** ** Loading (lines 25-37) *)

Section load.
(** [pd.to_datetime(_, errors="coerce")] on one cell: [None] is NaT. *)
Variable to_datetime : string -> option Z.

(** Line 28: the column is replaced by its parsed values. *)
Definition coerce (r : RawRow) : option Z * gmap string Qc :=
  (to_datetime (raw_date_cet r), raw_cells r).

(** Line 29, [dropna(subset=["date_cet"])]. *)
Definition dropna_date (r : option Z * gmap string Qc) : option Row :=
  match r.1 with
  | Some t => Some {| date_cet := t; cells := r.2 |}
  | None => None
  end.

Definition load_data (raw : RawFrame) : DataFrame :=
  {| columns := raw_columns raw;
     rows := sort_by date_leb (omap dropna_date (coerce <$> raw_rows raw)) |}.
End load.

(** Line 37, [set_index("date_cet").sort_index()]. *)
Definition gold_ts (gold_df : DataFrame) : DataFrame :=
  {| columns := columns gold_df; rows := sort_by date_leb (rows gold_df) |}.

(** ** Controls (lines 43-58) *)

Definition day_ns : Z := 86400000000000.

(** [normalize]: the timestamp's midnight. *)
Definition normalize (t : Z) : Z := (t - t `mod` day_ns)%Z.

Definition price_cols (ts : DataFrame) : list string := columns ts.

Definition available_dates (ts : DataFrame) : list Z :=
  sort_by Z.leb (remove_dups ((fun r => normalize (date_cet r)) <$> rows ts)).

(** [list.index(x)]: the position of the first [x]; Python raises
    [ValueError] when there is none ([None] here), which line 48 rules
    out by testing [in] first. *)
Fixpoint py_index (x : string) (l : list string) : option nat :=
  match l with
  | [] => None
  | y :: l' => if decide (y = x) then Some 0%nat else S <$> py_index x l'
  end.

(** [st.selectbox(label, options, index)] before the user chooses:
    the option at [index]; with no options the widget gives [None]. *)
Definition selectbox_default {A} (options : list A) (index : nat) : option A :=
  options !! index.

(** Line 48. *)
Definition default_country_index (cols : list string) : option nat :=
  if decide ("netherlands_nl"%string ∈ cols)
  then py_index "netherlands_nl" cols
  else Some 0%nat.

(** Lines 45-49: the market shown first. *)
Definition default_country (ts : DataFrame) : option string :=
  i ← default_country_index (price_cols ts);
  selectbox_default (price_cols ts) i.

(** Lines 53-58: the date shown first, at index [len - 1]. *)
Definition default_date (ts : DataFrame) : option Z :=
  selectbox_default (available_dates ts) (length (available_dates ts) - 1).

(** ** The day's slice (lines 60-70) *)

(** [.loc[mask, [country]]] keeps the rows of the day and one column. *)
Definition project (country : string) (r : Row) : Row :=
  {| date_cet := date_cet r;
     cells := match cells r !! country with
              | Some p => {[ country := p ]}
              | None => ∅
              end |}.

Definition loc (ts : DataFrame) (selected_date : Z) (country : string)
  : result (list Row) :=
  if decide (country ∈ columns ts) then
    Ok (project country <$>
          filter (fun r => normalize (date_cet r) = selected_date) (rows ts))
  else Err KeyError.

(** [dropna()] on a frame whose only column is [country]. *)
Definition dropna (country : string) (df : list Row) : list Row :=
  filter (fun r => is_Some (cells r !! country)) df.

Definition today (ts : DataFrame) (country : string) (selected_date : Z)
  : result (list Row) :=
  df ← loc ts selected_date country; Ok (dropna country df).

(** Lines 62-64. *)
Definition stop_if_empty (df : list Row) : result (list Row) :=
  match df with
  | [] => Err EmptySliceError
  | _ => Ok df
  end.

(** The specification's [selectSlice]: lines 60-64. *)
Definition select_slice (ts : DataFrame) (country : string) (selected_date : Z)
  : result (list Row) :=
  df ← today ts country selected_date; stop_if_empty df.

(** Line 70, [today["price_kwh"] = today[country] / 1000], on one row. *)
Definition to_kwh_row (country : string) (r : Row) : Row :=
  {| date_cet := date_cet r;
     cells := match cells r !! country with
              | Some p => <[ "price_kwh"%string := p / thousand ]> (cells r)
              | None => delete "price_kwh"%string (cells r)
              end |}.

Definition to_kwh (country : string) (df : list Row) : list Row :=
  to_kwh_row country <$> df.

(** ** Latest hour and day average (lines 73-77) *)

(** [today.tail(1)] then [["price_kwh"].iloc[0]] and [.index[0]]. *)
Definition current_row (df : list Row) : result Row :=
  match last df with
  | Some r => Ok r
  | None => Err IndexError
  end.

Definition sum_Qc (l : list Qc) : Qc := foldr Qcplus 0 l.

(** [Series.mean()].  On an empty series pandas gives NaN; the script
    stops before that.  The sum and the division are exact here, while
    the script's binary64 mean can differ from the exact one in the last
    place (three prices of 0.1 give 0.10000000000000002); for a series
    of one value both are that value. *)
Definition mean (l : list Qc) : Qc := sum_Qc l / Qc_of_nat (length l).

(** ** Baking cost (lines 83-88) *)

Definition OVEN_KW : Qc := Q2Qc (5 # 2).
Definition BAKE_HOURS : Qc := 1.
Definition BAKE_KWH : Qc := OVEN_KW * BAKE_HOURS.

(** ** Thresholds (lines 94-95) *)

(** [Series.quantile(q)] with the default linear interpolation: on the
    sorted values, the virtual index is [q * (n - 1)]; the result lies
    between the values at its floor and at the next index (kept within
    the series), at the fractional part of the way. *)
Definition interpolate (s : list Qc) (h : Qc) : Qc :=
  let i := Z.to_nat (Qfloor h) in
  let g := h - Qc_of_Z (Qfloor h) in
  let a := nth i s 0 in
  let b := nth (Nat.min (i + 1) (length s - 1)) s 0 in
  a + (b - a) * g.

Definition quantile (q : Qc) (l : list Qc) : Qc :=
  let s := sort_by Qc_leb l in
  interpolate s (q * Qc_of_nat (length s - 1)).

Definition low_thr (df : list Row) : Qc := quantile q33 (values "price_kwh" df).
Definition high_thr (df : list Row) : Qc := quantile q66 (values "price_kwh" df).

(** All prices of a series are equal. *)
Definition all_equal (l : list Qc) : Prop :=
  forall x y, x ∈ l -> y ∈ l -> x = y.

(** ** Recommendation logic (lines 94-106) *)

Definition APPLE_PIE : string * string := ("🥧 APPLE PIE TIME", "success")%string.
Definition CHEESECAKE : string * string := ("🍰 CHEESECAKE TIME", "error")%string.
Definition FLEXIBLE : string * string := ("🧁 FLEXIBLE BAKING HOUR", "info")%string.

(** [bake_reco] closes over [low_thr] and [high_thr]; here they are
    its first two arguments. *)
Definition bake_reco (low_thr high_thr price : Qc) : string * string :=
  if bool_decide (price ≤ low_thr) then APPLE_PIE
  else if bool_decide (high_thr ≤ price) then CHEESECAKE
  else FLEXIBLE.

(** ** Percent delta (line 112) *)

Definition pct_vs_avg (current_price_kwh daily_avg_kwh : Qc) : result Qc :=
  d ← py_div (current_price_kwh - daily_avg_kwh) daily_avg_kwh;
  Ok (d * hundred).

(** ** Cheapest and most expensive hours (lines 157-160) *)

Definition price_leb (r1 r2 : Row) : bool :=
  Qc_leb (cell "price_kwh" r1) (cell "price_kwh" r2).
Definition price_geb (r1 r2 : Row) : bool :=
  Qc_geb (cell "price_kwh" r1) (cell "price_kwh" r2).

(** [DataFrame.nsmallest(n, col)] and [nlargest(n, col)] with the
    default [keep="first"]: the first [n] rows in ascending (descending)
    order of the column, the earlier row first among equal values. *)
Definition nsmallest (n : nat) (df : list Row) : list Row :=
  take n (sort_by price_leb df).
Definition nlargest (n : nat) (df : list Row) : list Row :=
  take n (sort_by price_geb df).

(** The specification's [rankExtremes]. *)
Definition rank_extremes (df : list Row) (n : nat) : list Row * list Row :=
  (nsmallest n df, nlargest n df).

(** ** The page *)

(** A displayed table: index and value in cents/kWh. *)
Definition cents (df : list Row) : list (Z * Qc) :=
  (fun r => (date_cet r, cell "price_kwh" r * hundred)) <$> df.

Record Outputs : Type := {
  out_now : string * string;       (* title_now, kind_now *)
  out_price_now : Qc;              (* current_price_kwh * 100 *)
  out_bake_cost_now : Qc;
  out_pct_vs_avg : Qc;
  out_day : string * string;       (* title_day, kind_day *)
  out_price_avg : Qc;              (* daily_avg_kwh * 100 *)
  out_bake_cost_avg : Qc;
  out_chart : list (Z * Qc);
  out_cheapest : list (Z * Qc);
  out_priciest : list (Z * Qc)
}.

(** The values the script names, on the slice after line 70. *)
Definition current_price_kwh (df : list Row) : result Qc :=
  row ← current_row df; Ok (cell "price_kwh" row).
Definition current_time (df : list Row) : result Z :=
  row ← current_row df; Ok (date_cet row).
Definition daily_avg_kwh (df : list Row) : Qc := mean (values "price_kwh" df).

(** Lines 37-174 on a loaded table, in the order of the script. *)
Definition page (gold_df : DataFrame) (country : string) (selected_date : Z)
    (best_n : nat) : result Outputs :=
  let ts := gold_ts gold_df in
  df ← select_slice ts country selected_date;
  let df := to_kwh country df in
  price_now ← current_price_kwh df;
  let price_avg := daily_avg_kwh df in
  let bake_cost_now := BAKE_KWH * price_now in
  let bake_cost_avg := BAKE_KWH * price_avg in
  let now := bake_reco (low_thr df) (high_thr df) price_now in
  let day := bake_reco (low_thr df) (high_thr df) price_avg in
  pct ← pct_vs_avg price_now price_avg;
  Ok {| out_now := now;
        out_price_now := price_now * hundred;
        out_bake_cost_now := bake_cost_now;
        out_pct_vs_avg := pct;
        out_day := day;
        out_price_avg := price_avg * hundred;
        out_bake_cost_avg := bake_cost_avg;
        out_chart := cents df;
        out_cheapest := cents (nsmallest best_n df);
        out_priciest := cents (nlargest best_n df) |}.

(** ** A run of the script in its session *)

Section run.
Variable to_datetime : string -> option Z.

(** [@st.cache_data]: the entries of [load_data] by argument. *)
Definition load_data_cached (raw : RawFrame) (path : string)
    (cache : gmap string DataFrame) : DataFrame * gmap string DataFrame :=
  match cache !! path with
  | Some df => (df, cache)
  | None => let df := load_data to_datetime raw in (df, <[ path := df ]> cache)
  end.

(** The table a run works on, when the file is there. *)
Definition loaded_table (files : gmap string RawFrame) (DATA_PATH : string)
    (cache : gmap string DataFrame) : option DataFrame :=
  match files !! DATA_PATH with
  | None => None
  | Some raw => Some (load_data_cached raw DATA_PATH cache).1
  end.

(** One run: the files by path, the cache of the session, the three
    widget values.  It gives what is shown and the cache it leaves. *)
Definition run (files : gmap string RawFrame) (DATA_PATH : string)
    (cache : gmap string DataFrame)
    (country : string) (selected_date : Z) (best_n : nat)
  : result Outputs * gmap string DataFrame :=
  match files !! DATA_PATH with
  | None => (Err DataNotFoundError, cache)
  | Some raw =>
      let '(gold_df, cache') := load_data_cached raw DATA_PATH cache in
      (page gold_df country selected_date best_n, cache')
  end.
End run.

(** ** The script as a program on a store *)

(** The script works on DataFrame objects: most pandas calls return a
    new object, while an item assignment ([df[col] = ...], lines 70,
    149, 167 and 173) changes an object in place.  What outlives a
    run is the store of the process and the cache of [st.cache_data],
    which keeps a pickled copy of each result of [load_data] and hands
    out a fresh copy on every call. *)
Record Session : Type := {
  heap : gmap nat DataFrame;       (* the DataFrame objects, by address *)
  next : nat;                      (* the next fresh address *)
  cache : gmap string DataFrame    (* the results of [load_data], by path *)
}.

Definition St (A : Type) : Type := Session -> result A * Session.

Global Instance St_ret : MRet St := fun A a s => (Ok a, s).
Global Instance St_bind : MBind St := fun A B k m s =>
  match m s with
  | (Ok a, s') => k a s'
  | (Err e, s') => (Err e, s')
  end.

(** [st.stop()] after [st.error], or an exception that nothing
    catches: the run ends, the store stays. *)
Definition raise {A} (e : Exn) : St A := fun s => (Err e, s).

(** A new object. *)
Definition new (df : DataFrame) : St nat := fun s =>
  (Ok (next s),
   {| heap := <[ next s := df ]> (heap s); next := S (next s); cache := cache s |}).

(** Reading an object.  Addresses only come from [new], so the object
    is there; the empty frame stands for the case that cannot occur. *)
Definition get (r : nat) : St DataFrame := fun s =>
  (Ok (default {| columns := []; rows := [] |} (heap s !! r)), s).

(** Changing an object in place. *)
Definition put (r : nat) (df : DataFrame) : St unit := fun s =>
  (Ok tt, {| heap := <[ r := df ]> (heap s); next := next s; cache := cache s |}).

(** A method that returns a new frame with the same columns. *)
Definition st_rows (f : list Row -> list Row) (r : nat) : St nat :=
  df ← get r; new {| columns := columns df; rows := f (rows df) |}.

(** [df[col] = ...]: the rows change in place and [col] becomes a
    column if it was none. *)
Definition st_setitem (col : string) (f : Row -> Row) (r : nat) : St unit :=
  df ← get r;
  put r {| columns := if decide (col ∈ columns df) then columns df
                      else columns df ++ [col];
           rows := f <$> rows df |}.

(** [df[[col]]]: a new frame of one column. *)
Definition st_getitem (col : string) (r : nat) : St nat :=
  df ← get r; new {| columns := [col]; rows := project col <$> rows df |}.

(** [df.copy()]. *)
Definition st_copy (r : nat) : St nat := df ← get r; new df.

(** [col * k] on one row, assigned to [col'] (lines 149, 167, 173). *)
Definition times_into (col col' : string) (k : Qc) (r : Row) : Row :=
  {| date_cet := date_cet r;
     cells := match cells r !! col with
              | Some p => <[ col' := p * k ]> (cells r)
              | None => delete col' (cells r)
              end |}.

(** [rename(columns={col: col'})] on one row. *)
Definition rename_row (col col' : string) (r : Row) : Row :=
  {| date_cet := date_cet r;
     cells := match cells r !! col with
              | Some p => <[ col' := p ]> (delete col (cells r))
              | None => cells r
              end |}.

Definition st_rename (col col' : string) (r : nat) : St nat :=
  df ← get r;
  new {| columns := (fun c => if decide (c = col) then col' else c) <$> columns df;
         rows := rename_row col col' <$> rows df |}.

(** What a displayed frame of one column shows. *)
Definition shown (col : string) (df : DataFrame) : list (Z * Qc) :=
  (fun r => (date_cet r, cell col r)) <$> rows df.

(** Lines 37-174 on the loaded table's object, statement by statement.
    The market, the date and the number of hours are what the three
    widgets return; line 75 reads the index of the row that line 74
    reads and shows nothing. *)
Definition script_page (gold_df : nat) (country : string) (selected_date : Z)
    (best_n : nat) : St Outputs :=
  indexed ← st_copy gold_df;                                        (* 37 *)
  gold_ts_ ← st_rows (sort_by date_leb) indexed;
  ts ← get gold_ts_;
  located ← match loc ts selected_date country with                 (* 60 *)
            | Ok l => new {| columns := [country]; rows := l |}
            | Err e => raise e
            end;
  today_ ← st_rows (dropna country) located;
  df ← get today_;
  match rows df with
  | [] => raise EmptySliceError                                     (* 62-64 *)
  | _ =>
    st_setitem "price_kwh" (to_kwh_row country) today_;;            (* 70 *)
    current_row_ ← st_rows (fun l => drop (length l - 1) l) today_; (* 73 *)
    cr ← get current_row_;
    price_now ← match rows cr with                                  (* 74 *)
                | r :: _ => mret (cell "price_kwh" r)
                | [] => raise IndexError
                end;
    df ← get today_;
    let price_avg := mean (values "price_kwh" (rows df)) in         (* 77 *)
    let bake_cost_now := BAKE_KWH * price_now in                    (* 87 *)
    let bake_cost_avg := BAKE_KWH * price_avg in
    let low := quantile q33 (values "price_kwh" (rows df)) in       (* 94 *)
    let high := quantile q66 (values "price_kwh" (rows df)) in
    let now := bake_reco low high price_now in                      (* 105 *)
    let day := bake_reco low high price_avg in
    pct ← match pct_vs_avg price_now price_avg with                 (* 112 *)
          | Ok d => mret d
          | Err e => raise e
          end;
    chart_df ← st_getitem "price_kwh" today_;                       (* 148 *)
    chart_df ← st_copy chart_df;
    st_setitem "price_kwh" (times_into "price_kwh" "price_kwh" hundred) chart_df;;
    chart_df ← st_rename "price_kwh" "cents/kWh" chart_df;          (* 150 *)
    chart ← get chart_df;
    cheapest ← st_rows (nsmallest best_n) today_;                   (* 159 *)
    priciest ← st_rows (nlargest best_n) today_;
    cheapest_display ← st_copy cheapest;                            (* 166 *)
    st_setitem "cents/kWh" (times_into "price_kwh" "cents/kWh" hundred)
      cheapest_display;;
    c_shown ← st_getitem "cents/kWh" cheapest_display;
    c_shown ← get c_shown;
    priciest_display ← st_copy priciest;                            (* 172 *)
    st_setitem "cents/kWh" (times_into "price_kwh" "cents/kWh" hundred)
      priciest_display;;
    p_shown ← st_getitem "cents/kWh" priciest_display;
    p_shown ← get p_shown;
    mret {| out_now := now;
            out_price_now := price_now * hundred;
            out_bake_cost_now := bake_cost_now;
            out_pct_vs_avg := pct;
            out_day := day;
            out_price_avg := price_avg * hundred;
            out_bake_cost_avg := bake_cost_avg;
            out_chart := shown "cents/kWh" chart;
            out_cheapest := shown "cents/kWh" c_shown;
            out_priciest := shown "cents/kWh" p_shown |}
  end.

Section script.
Variable to_datetime : string -> option Z.

(** Line 36 under [@st.cache_data]: on a hit a fresh copy of the cached
    table, on a miss the table just loaded, of which the cache keeps a
    copy. *)
Definition st_load_data (raw : RawFrame) (path : string) : St nat := fun s =>
  match cache s !! path with
  | Some df => new df s
  | None =>
      let df := load_data to_datetime raw in
      new df {| heap := heap s; next := next s; cache := <[ path := df ]> (cache s) |}
  end.

(** The whole script: lines 32-36, then the page. *)
Definition script (files : gmap string RawFrame) (DATA_PATH : string)
    (country : string) (selected_date : Z) (best_n : nat) : St Outputs :=
  match files !! DATA_PATH with
  | None => raise DataNotFoundError
  | Some raw =>
      gold_df ← st_load_data raw DATA_PATH;
      script_page gold_df country selected_date best_n
  end.

(** The table a run of [script] works on, when the file is there. *)
Definition script_table (files : gmap string RawFrame) (DATA_PATH : string)
    (s : Session) : option DataFrame :=
  match files !! DATA_PATH with
  | None => None
  | Some raw =>
      Some (default (load_data to_datetime raw) (cache s !! DATA_PATH))
  end.
End script.

(** The store of a process that has just started. *)
Definition new_session : Session := {| heap := ∅; next := 0; cache := ∅ |}.

(** ** Sample tables *)

Definition hour_ns : Z := 3600000000000.

(** A parsed row of the market [netherlands_nl]: the hour of day 0 and
    the price in EUR/MWh. *)
Definition nl_row (h : Z) (mwh : Z) : Row :=
  {| date_cet := (h * hour_ns)%Z;
     cells := {[ "netherlands_nl"%string := Qc_of_Z mwh ]} |}.

(** Three hours at 1000 EUR/MWh, then one at 2000. *)
Definition flat_then_peak : DataFrame :=
  {| columns := ["netherlands_nl"%string];
     rows := [nl_row 0 1000; nl_row 1 1000; nl_row 2 1000; nl_row 3 2000] |}.

(** One hour of day 0 at 1000 EUR/MWh. *)
Definition one_hour : DataFrame :=
  {| columns := ["netherlands_nl"%string]; rows := [nl_row 0 1000] |}.

(** A day whose hours have no price for the market. *)
Definition missing_day : DataFrame :=
  {| columns := ["netherlands_nl"%string];
     rows := [ {| date_cet := 0; cells := ∅ |};
               {| date_cet := hour_ns; cells := ∅ |} ] |}.

(** The texts of the sample file below, as [pd.to_datetime] reads them:
    27 October 2024 is day 20023 of the epoch. *)
Definition sample_to_datetime (s : string) : option Z :=
  if decide (s = "2024-10-27 02:00:00"%string)
  then Some (20023 * day_ns + 2 * hour_ns)%Z
  else if decide (s = "2024-10-27 03:00:00"%string)
  then Some (20023 * day_ns + 3 * hour_ns)%Z
  else None.

Definition raw_nl (text : string) (mwh : Z) : RawRow :=
  {| raw_date_cet := text;
     raw_cells := {[ "netherlands_nl"%string := Qc_of_Z mwh ]} |}.

(** The night the clocks go back: local hour 02:00 is there twice. *)
Definition clock_change_raw : RawFrame :=
  {| raw_columns := ["netherlands_nl"%string];
     raw_rows := [ raw_nl "2024-10-27 03:00:00" 70;
                   raw_nl "2024-10-27 02:00:00" 80;
                   raw_nl "not a date" 60;
                   raw_nl "2024-10-27 02:00:00" 75 ] |}.

(** The same file without the repeated hour. *)
Definition plain_raw : RawFrame :=
  {| raw_columns := ["netherlands_nl"%string];
     raw_rows := [ raw_nl "2024-10-27 03:00:00" 70;
                   raw_nl "not a date" 60;
                   raw_nl "2024-10-27 02:00:00" 80 ] |}.

(** Two hours that average 0 EUR/MWh. *)
Definition zero_average_day : DataFrame :=
  {| columns := ["netherlands_nl"%string];
     rows := [nl_row 0 (-1000); nl_row 1 1000] |}.

(** A store that earlier runs have used: two objects, and the table
    of [plain_raw] in the cache. *)
Definition used_session : Session :=
  {| heap := {[ 0%nat := flat_then_peak; 1%nat := missing_day ]};
     next := 2;
     cache := {[ "Data/gold.csv"%string := load_data sample_to_datetime plain_raw ]} |}.

(** ** Tactics *)

(** Goals on [Qc] are taken to [Q], where [lra] and [nra] work. *)
Ltac qc :=
  unfold Qcle, Qclt, Qcminus, Qcplus, Qcopp, Qcmult, Qc_of_nat, Qc_of_Z in *;
  cbn [this Q2Qc] in *; rewrite ?Qred_correct in *.

(** A closed decidable fact is settled by evaluating its decision. *)
Ltac by_decide :=
  lazymatch goal with
  | |- ?G => refine (bool_decide_unpack G _); by vm_compute
  end.

(** Lookups in a store after allocations and updates. *)
Ltac heap_simpl :=
  cbn [heap next cache];
  repeat first [rewrite lookup_insert_eq | rewrite lookup_insert_ne by lia].

Ltac st_get := heap_simpl; first [reflexivity | eassumption].

(** * Properties *)

Lemma reco_distinct :
  APPLE_PIE ≠ CHEESECAKE ∧ APPLE_PIE ≠ FLEXIBLE ∧ CHEESECAKE ≠ FLEXIBLE.
Proof. repeat split; discriminate. Qed.

Lemma bake_reco_le (low high price : Qc) :
  price ≤ low -> bake_reco low high price = APPLE_PIE.
Proof. intros H. unfold bake_reco. by rewrite bool_decide_eq_true_2. Qed.

Lemma bake_reco_ge (low high price : Qc) :
  ¬ price ≤ low -> high ≤ price -> bake_reco low high price = CHEESECAKE.
Proof.
  intros H1 H2. unfold bake_reco. rewrite bool_decide_eq_false_2 by done.
  by rewrite bool_decide_eq_true_2.
Qed.

Lemma bake_reco_between (low high price : Qc) :
  ¬ price ≤ low -> ¬ high ≤ price -> bake_reco low high price = FLEXIBLE.
Proof. intros H1 H2. unfold bake_reco. by rewrite !bool_decide_eq_false_2. Qed.

(** C1.  [bake_reco] tries its branches in order and the first match
    wins: [price <= low] gives APPLE PIE; otherwise [price >= high] gives
    CHEESECAKE; otherwise FLEXIBLE.  When [low = high], a price equal to
    both is APPLE PIE. *)
Theorem bake_reco_first_match (low high price : Qc) :
  (price ≤ low -> bake_reco low high price = APPLE_PIE) ∧
  (¬ price ≤ low -> high ≤ price -> bake_reco low high price = CHEESECAKE) ∧
  (¬ price ≤ low -> ¬ high ≤ price -> bake_reco low high price = FLEXIBLE) ∧
  (low = high -> price = low -> bake_reco low high price = APPLE_PIE).
Proof.
  split; [|split; [|split]].
  - apply bake_reco_le.
  - apply bake_reco_ge.
  - apply bake_reco_between.
  - intros _ ->. by apply bake_reco_le.
Qed.

(** ** Sorting *)

Section sort_by_facts.
Context {A : Type} (leb : A -> A -> bool).

Lemma insert_by_Permutation x l : insert_by leb x l ≡ₚ x :: l.
Proof.
  induction l as [|y l IH]; simpl; [done|].
  destruct (leb x y); [done|].
  rewrite IH. apply Permutation_swap.
Qed.

Lemma sort_by_Permutation l : sort_by leb l ≡ₚ l.
Proof.
  induction l as [|x l IH]; simpl; [done|].
  by rewrite insert_by_Permutation, IH.
Qed.

Lemma sort_by_length l : length (sort_by leb l) = length l.
Proof. by rewrite sort_by_Permutation. Qed.

Lemma sort_by_elem_of x l : x ∈ sort_by leb l ↔ x ∈ l.
Proof. by rewrite sort_by_Permutation. Qed.

Section sorted.
Hypothesis leb_total : forall x y, leb x y = true ∨ leb y x = true.
Hypothesis leb_trans : forall x y z, leb x y = true -> leb y z = true -> leb x z = true.

Lemma insert_by_sorted x l :
  StronglySorted (fun a b => leb a b = true) l ->
  StronglySorted (fun a b => leb a b = true) (insert_by leb x l).
Proof.
  induction 1 as [|y l Hl IH Hy]; simpl.
  - repeat constructor.
  - destruct (leb x y) eqn:Hxy.
    + constructor; [by constructor|].
      constructor; [done|].
      eapply Forall_impl; [exact Hy|]. intros z Hz. by eapply leb_trans.
    + constructor; [done|].
      rewrite insert_by_Permutation. constructor; [|done].
      destruct (leb_total x y); congruence.
Qed.

Lemma sort_by_sorted l : StronglySorted (fun a b => leb a b = true) (sort_by leb l).
Proof.
  induction l as [|x l IH]; simpl; [constructor|]. by apply insert_by_sorted.
Qed.
End sorted.

(** Stability: the rows of one class of ties keep their order. *)
Section stable.
Context (P : A -> Prop) `{!forall x, Decision (P x)}.
Hypothesis leb_tie : forall x y, P x -> P y -> leb x y = true.

Lemma insert_by_filter x l : filter P (insert_by leb x l) = filter P (x :: l).
Proof.
  induction l as [|y l IH]; simpl; [done|].
  destruct (leb x y) eqn:Hxy; [done|].
  rewrite filter_cons, IH, !filter_cons.
  destruct (decide (P x)) as [Hx|Hx], (decide (P y)) as [Hy|Hy]; try done.
  rewrite leb_tie in Hxy; done.
Qed.

Lemma sort_by_filter l : filter P (sort_by leb l) = filter P l.
Proof.
  induction l as [|x l IH]; simpl; [done|].
  by rewrite insert_by_filter, !filter_cons, IH.
Qed.
End stable.
End sort_by_facts.

Lemma StronglySorted_impl {A} (R1 R2 : relation A) l :
  (forall x y, R1 x y -> R2 x y) -> StronglySorted R1 l -> StronglySorted R2 l.
Proof.
  intros HR. induction 1 as [|x l Hl IH Hx]; constructor; [done|].
  eapply Forall_impl; [exact Hx|]. auto.
Qed.

Lemma StronglySorted_take {A} (R : relation A) n l :
  StronglySorted R l -> StronglySorted R (take n l).
Proof.
  intros H. rewrite <-(take_drop n l) in H. by apply StronglySorted_app_1_l in H.
Qed.

Lemma filter_take_prefix {A} (P : A -> Prop) `{!forall x, Decision (P x)} n (l : list A) :
  filter P (take n l) `prefix_of` filter P l.
Proof.
  exists (filter P (drop n l)). by rewrite <-filter_app, take_drop.
Qed.

(** ** Rational arithmetic *)

Lemma Qc_of_nat_nonneg n : 0 ≤ Qc_of_nat n.
Proof. qc. change 0%Q with (inject_Z 0). rewrite <-Zle_Qle. lia. Qed.

Lemma lerp_mono (a b g1 g2 : Qc) :
  a ≤ b -> g1 ≤ g2 -> a + (b - a) * g1 ≤ a + (b - a) * g2.
Proof. intros. qc. nra. Qed.

Lemma lerp_lower (a b g : Qc) : a ≤ b -> 0 ≤ g -> a ≤ a + (b - a) * g.
Proof. intros. qc. nra. Qed.

Lemma lerp_upper (a b g : Qc) : a ≤ b -> g ≤ 1 -> a + (b - a) * g ≤ b.
Proof. intros. qc. nra. Qed.

Lemma lerp_flat (a g : Qc) : a + (a - a) * g = a.
Proof. ring. Qed.

Lemma floor_frac (h : Qc) :
  0 ≤ h - Qc_of_Z (Qfloor h) ∧ h - Qc_of_Z (Qfloor h) ≤ 1.
Proof.
  pose proof (Qfloor_le h). pose proof (Qlt_floor h).
  rewrite inject_Z_plus in *. change (inject_Z 1) with 1%Q in *.
  split; qc; lra.
Qed.

Lemma floor_bounds (h : Qc) (n : nat) :
  0 ≤ h -> h ≤ Qc_of_nat n -> (0 ≤ Qfloor h ≤ Z.of_nat n)%Z.
Proof.
  intros H0 H1. split.
  - change 0%Z with (Qfloor 0%Qc). by apply Qfloor_resp_le.
  - rewrite <-(Qfloor_Z (Z.of_nat n)). by apply Qfloor_resp_le.
Qed.

(** ** Quantiles *)

Lemma sorted_nth_le (s : list Qc) i j :
  StronglySorted Qcle s -> (i <= j)%nat -> (j < length s)%nat ->
  nth i s 0 ≤ nth j s 0.
Proof.
  intros Hs. revert i j. induction Hs as [|x s Hs IH Hx]; intros i j Hij Hj.
  - simpl in Hj. lia.
  - destruct i as [|i], j as [|j]; simpl in *; try lia.
    + apply Qcle_refl.
    + rewrite Forall_forall in Hx. apply Hx.
      apply list_elem_of_In, nth_In. lia.
    + apply IH; lia.
Qed.

(** On sorted values the interpolation does not decrease with the
    virtual index. *)
Lemma interpolate_mono (s : list Qc) (h1 h2 : Qc) :
  StronglySorted Qcle s ->
  0 ≤ h1 -> h1 ≤ h2 -> h2 ≤ Qc_of_nat (length s - 1) ->
  interpolate s h1 ≤ interpolate s h2.
Proof.
  intros Hs H0 H12 Hn.
  destruct s as [|x0 s0] eqn:Es.
  { unfold interpolate.
    assert (E : forall i, nth i (@nil Qc) 0 = 0) by (by intros [|?]).
    rewrite !E, !lerp_flat. apply Qcle_refl. }
  rewrite <-Es in *. assert (Hlen : (0 < length s)%nat) by (subst s; simpl; lia).
  clear Es x0 s0.
  assert (H02 : 0 ≤ h2) by (by eapply Qcle_trans).
  assert (H1n : h1 ≤ Qc_of_nat (length s - 1)) by (by eapply Qcle_trans).
  pose proof (floor_bounds h1 _ H0 H1n) as [Hf1 Hf1'].
  pose proof (floor_bounds h2 _ H02 Hn) as [Hf2 Hf2'].
  pose proof (Qfloor_resp_le h1 h2 H12) as Hf12.
  pose proof (floor_frac h1) as [Hg1 Hg1'].
  pose proof (floor_frac h2) as [Hg2 Hg2'].
  unfold interpolate.
  set (i1 := Z.to_nat (Qfloor h1)). set (i2 := Z.to_nat (Qfloor h2)).
  assert (Hi1 : (i1 <= length s - 1)%nat) by lia.
  assert (Hi2 : (i2 <= length s - 1)%nat) by lia.
  assert (Hab1 : nth i1 s 0 ≤ nth (Nat.min (i1 + 1) (length s - 1)) s 0)
    by (apply sorted_nth_le; [done|lia..]).
  assert (Hab2 : nth i2 s 0 ≤ nth (Nat.min (i2 + 1) (length s - 1)) s 0)
    by (apply sorted_nth_le; [done|lia..]).
  destruct (decide (Qfloor h1 = Qfloor h2)) as [Heq|Hne].
  - assert (i1 = i2) as -> by (unfold i1, i2; by rewrite Heq).
    rewrite Heq. apply lerp_mono; [done|].
    revert H12. clear. intros. qc. lra.
  - eapply Qcle_trans; [by apply lerp_upper|].
    eapply Qcle_trans; [|by apply lerp_lower].
    apply sorted_nth_le; [done|lia..].
Qed.

Lemma Qc_leb_total x y : Qc_leb x y = true ∨ Qc_leb y x = true.
Proof.
  unfold Qc_leb. rewrite !bool_decide_eq_true.
  destruct (Qclt_le_dec x y); auto using Qclt_le_weak.
Qed.

Lemma Qc_leb_trans x y z :
  Qc_leb x y = true -> Qc_leb y z = true -> Qc_leb x z = true.
Proof. unfold Qc_leb. rewrite !bool_decide_eq_true. apply Qcle_trans. Qed.

Lemma sort_Qc_sorted l : StronglySorted Qcle (sort_by Qc_leb l).
Proof.
  eapply StronglySorted_impl;
    [|apply sort_by_sorted; [apply Qc_leb_total|apply Qc_leb_trans]].
  intros x y. unfold Qc_leb. by rewrite bool_decide_eq_true.
Qed.

Lemma quantile_mono (q1 q2 : Qc) (l : list Qc) :
  0 ≤ q1 -> q1 ≤ q2 -> q2 ≤ 1 -> quantile q1 l ≤ quantile q2 l.
Proof.
  intros H0 H12 H1. unfold quantile.
  pose proof (Qc_of_nat_nonneg (length (sort_by Qc_leb l) - 1)) as Hn.
  apply interpolate_mono; [apply sort_Qc_sorted|..];
    revert H0 H12 H1 Hn; generalize (Qc_of_nat (length (sort_by Qc_leb l) - 1));
    clear; intros; qc; nra.
Qed.

Lemma q33_range : 0 ≤ q33 ∧ q33 ≤ q66 ∧ q66 ≤ 1.
Proof. by vm_compute. Qed.

Lemma quantile_const (q x : Qc) (l : list Qc) :
  0 ≤ q -> q ≤ 1 -> x ∈ l -> all_equal l -> quantile q l = x.
Proof.
  intros H0 H1 Hx Hall. unfold quantile.
  set (s := sort_by Qc_leb l).
  assert (Hs : forall y, y ∈ s -> y = x).
  { intros y Hy. apply Hall; [|done]. by apply sort_by_elem_of in Hy. }
  assert (Hlen : (0 < length s)%nat).
  { unfold s. rewrite sort_by_length. destruct l; [by apply elem_of_nil in Hx|simpl; lia]. }
  pose proof (Qc_of_nat_nonneg (length s - 1)) as Hn.
  assert (Hh0 : 0 ≤ q * Qc_of_nat (length s - 1)).
  { revert H0 Hn. generalize (Qc_of_nat (length s - 1)). clear. intros. qc. nra. }
  assert (Hh1 : q * Qc_of_nat (length s - 1) ≤ Qc_of_nat (length s - 1)).
  { revert H1 Hn. generalize (Qc_of_nat (length s - 1)). clear. intros. qc. nra. }
  pose proof (floor_bounds _ _ Hh0 Hh1) as [Hf0 Hf1].
  unfold interpolate.
  rewrite (Hs (nth (Z.to_nat _) s 0)), (Hs (nth (Nat.min _ _) s 0)).
  - apply lerp_flat.
  - apply list_elem_of_In, nth_In. lia.
  - apply list_elem_of_In, nth_In. lia.
Qed.

Lemma quantile_nil (q : Qc) : quantile q [] = 0.
Proof.
  unfold quantile, interpolate. simpl sort_by.
  assert (E : forall i, nth i (@nil Qc) 0 = 0) by (by intros [|?]).
  rewrite !E. apply lerp_flat.
Qed.

(** ** C1 and C2: the recommendation *)

Lemma bake_reco_first_match_witness :
  bake_reco 1 2 1 = APPLE_PIE ∧ bake_reco 1 2 2 = CHEESECAKE ∧
  bake_reco 1 (1 + 2) 2 = FLEXIBLE ∧ bake_reco 1 1 1 = APPLE_PIE.
Proof.
  split; [|split; [|split]].
  - apply (proj1 (bake_reco_first_match 1 2 1)). by_decide.
  - apply (proj1 (proj2 (bake_reco_first_match 1 2 2))); by_decide.
  - apply (proj1 (proj2 (proj2 (bake_reco_first_match 1 (1 + 2) 2)))); by_decide.
  - by apply (proj2 (proj2 (proj2 (bake_reco_first_match 1 1 1)))).
Defined.

(** C2, as stated, fails: with [low = high], a price equal to [high]
    is APPLE PIE, not CHEESECAKE. *)
Lemma bake_reco_high_precedence_counterexample :
  let low : Qc := 1 in
  let high : Qc := 1 in
  let price : Qc := 1 in
  low = high ∧ price = high ∧ bake_reco low high price = APPLE_PIE ∧
  bake_reco low high price ≠ CHEESECAKE.
Proof. by vm_compute. Qed.

(** C2, amended.  A price equal to [low] is favorable (APPLE PIE), never
    neutral; a price equal to [high] is unfavorable (CHEESECAKE) when
    [low < high]; when [low = high], favorable takes precedence. *)
Theorem bake_reco_at_thresholds (low high price : Qc) :
  (price = low -> bake_reco low high price = APPLE_PIE) ∧
  (low < high -> price = high -> bake_reco low high price = CHEESECAKE) ∧
  (low = high -> price = high -> bake_reco low high price = APPLE_PIE).
Proof.
  split; [|split].
  - intros ->. by apply bake_reco_le.
  - intros Hlt ->. apply bake_reco_ge; [by apply Qclt_not_le|done].
  - intros -> ->. by apply bake_reco_le.
Qed.

Lemma bake_reco_at_thresholds_witness :
  bake_reco 1 2 1 = APPLE_PIE ∧ bake_reco 1 2 2 = CHEESECAKE ∧
  bake_reco 1 1 1 = APPLE_PIE.
Proof.
  split; [|split].
  - by apply (proj1 (bake_reco_at_thresholds 1 2 1)).
  - apply (proj1 (proj2 (bake_reco_at_thresholds 1 2 2))); [by_decide|done].
  - by apply (proj2 (proj2 (bake_reco_at_thresholds 1 1 1))).
Defined.

(** ** C3: the thresholds *)

(** C3, as stated, fails: on the prices 1, 1, 1, 2 both thresholds are
    1 although the prices are not all equal. *)
Lemma thresholds_equal_counterexample :
  exists df0, select_slice flat_then_peak "netherlands_nl" 0 = Ok df0 ∧
    let df := to_kwh "netherlands_nl" df0 in
    df ≠ [] ∧ low_thr df = high_thr df ∧ ¬ all_equal (values "price_kwh" df).
Proof.
  eexists. split; [vm_compute; reflexivity|].
  split; [done|]. split.
  - apply Qc_is_canon. by vm_compute.
  - intros H.
    specialize (H (Qc_of_Z 1000 / thousand) (Qc_of_Z 2000 / thousand)).
    assert (Hne : Qc_of_Z 1000 / thousand ≠ Qc_of_Z 2000 / thousand).
    { intros E. apply (f_equal this) in E. by vm_compute in E. }
    apply Hne, H.
    + by apply (list_elem_of_lookup_2 _ 0%nat).
    + by apply (list_elem_of_lookup_2 _ 3%nat).
Qed.

(** C3, amended.  The thresholds satisfy [low <= high] on every slice,
    and [low = high] whenever all prices of the slice are equal. *)
Theorem thresholds_ordered (df : list Row) :
  low_thr df ≤ high_thr df ∧
  (all_equal (values "price_kwh" df) -> low_thr df = high_thr df).
Proof.
  destruct q33_range as (H0 & H1 & H2). split.
  - unfold low_thr, high_thr. apply quantile_mono; assumption.
  - intros Hall. unfold low_thr, high_thr.
    destruct (values "price_kwh" df) as [|x l] eqn:E.
    + by rewrite !quantile_nil.
    + assert (Hx : x ∈ x :: l) by apply list_elem_of_here.
      rewrite !(quantile_const _ x); [done|..]; try done;
        by eapply Qcle_trans.
Qed.

Lemma thresholds_ordered_witness :
  let df := to_kwh "netherlands_nl" [nl_row 0 1000; nl_row 1 1000] in
  low_thr df ≤ high_thr df ∧ low_thr df = high_thr df.
Proof.
  intros df. split; [apply (thresholds_ordered df)|].
  apply (proj2 (thresholds_ordered df)).
  intros x y Hx Hy.
  assert (E : values "price_kwh" df = [Qc_of_Z 1000 / thousand; Qc_of_Z 1000 / thousand])
    by reflexivity.
  rewrite E in Hx, Hy. clear E.
  repeat (apply elem_of_cons in Hx as [->|Hx]);
    repeat (apply elem_of_cons in Hy as [->|Hy]);
    try reflexivity; by apply elem_of_nil in Hx || by apply elem_of_nil in Hy.
Defined.

(** ** C4: cheapest and most expensive hours *)

Lemma price_leb_total r1 r2 : price_leb r1 r2 = true ∨ price_leb r2 r1 = true.
Proof. apply Qc_leb_total. Qed.

Lemma price_leb_trans r1 r2 r3 :
  price_leb r1 r2 = true -> price_leb r2 r3 = true -> price_leb r1 r3 = true.
Proof. apply Qc_leb_trans. Qed.

Lemma price_geb_total r1 r2 : price_geb r1 r2 = true ∨ price_geb r2 r1 = true.
Proof. unfold price_geb, Qc_geb. apply (Qc_leb_total (cell _ r2) (cell _ r1)). Qed.

Lemma price_geb_trans r1 r2 r3 :
  price_geb r1 r2 = true -> price_geb r2 r3 = true -> price_geb r1 r3 = true.
Proof.
  unfold price_geb, Qc_geb. rewrite !bool_decide_eq_true.
  intros H1 H2. by eapply Qcle_trans.
Qed.

Lemma nsmallest_sorted n df :
  StronglySorted (fun a b => cell "price_kwh" a ≤ cell "price_kwh" b) (nsmallest n df).
Proof.
  apply StronglySorted_take.
  eapply StronglySorted_impl;
    [|apply (sort_by_sorted price_leb); [apply price_leb_total|apply price_leb_trans]].
  intros a b. unfold price_leb, Qc_leb. by rewrite bool_decide_eq_true.
Qed.

Lemma nlargest_sorted n df :
  StronglySorted (fun a b => cell "price_kwh" b ≤ cell "price_kwh" a) (nlargest n df).
Proof.
  apply StronglySorted_take.
  eapply StronglySorted_impl;
    [|apply (sort_by_sorted price_geb); [apply price_geb_total|apply price_geb_trans]].
  intros a b. unfold price_geb, Qc_geb. by rewrite bool_decide_eq_true.
Qed.

Lemma nsmallest_stable n df p :
  filter (fun r => cell "price_kwh" r = p) (nsmallest n df)
    `prefix_of` filter (fun r => cell "price_kwh" r = p) df.
Proof.
  unfold nsmallest.
  rewrite <-(sort_by_filter price_leb (fun r => cell "price_kwh" r = p)) with (l := df).
  - apply filter_take_prefix.
  - intros x y Hx Hy. unfold price_leb, Qc_leb. rewrite Hx, Hy.
    by rewrite bool_decide_eq_true.
Qed.

Lemma nlargest_stable n df p :
  filter (fun r => cell "price_kwh" r = p) (nlargest n df)
    `prefix_of` filter (fun r => cell "price_kwh" r = p) df.
Proof.
  unfold nlargest.
  rewrite <-(sort_by_filter price_geb (fun r => cell "price_kwh" r = p)) with (l := df).
  - apply filter_take_prefix.
  - intros x y Hx Hy. unfold price_geb, Qc_geb. rewrite Hx, Hy.
    by rewrite bool_decide_eq_true.
Qed.

Lemma take_sort_submseteq {A} (leb : A -> A -> bool) n l :
  take n (sort_by leb l) ⊆+ l.
Proof.
  etransitivity; [apply sublist_submseteq, sublist_take|].
  by rewrite sort_by_Permutation.
Qed.

(** C4.  [cheapest] and [priciest] each have [min n (len slice)] rows
    taken from the slice; [cheapest] ascends and [priciest] descends in
    price; and in both, the rows of one price are the first rows of that
    price in the slice, in the slice's order. *)
Theorem rank_extremes_spec (df : list Row) (n : nat) :
  let cheapest := (rank_extremes df n).1 in
  let priciest := (rank_extremes df n).2 in
  length cheapest = Nat.min n (length df) ∧
  length priciest = Nat.min n (length df) ∧
  cheapest ⊆+ df ∧ priciest ⊆+ df ∧
  StronglySorted (fun a b => cell "price_kwh" a ≤ cell "price_kwh" b) cheapest ∧
  StronglySorted (fun a b => cell "price_kwh" b ≤ cell "price_kwh" a) priciest ∧
  (forall p, filter (fun r => cell "price_kwh" r = p) cheapest
               `prefix_of` filter (fun r => cell "price_kwh" r = p) df) ∧
  (forall p, filter (fun r => cell "price_kwh" r = p) priciest
               `prefix_of` filter (fun r => cell "price_kwh" r = p) df).
Proof.
  simpl. repeat split.
  - unfold nsmallest. by rewrite length_take, sort_by_length.
  - unfold nlargest. by rewrite length_take, sort_by_length.
  - apply take_sort_submseteq.
  - apply take_sort_submseteq.
  - apply nsmallest_sorted.
  - apply nlargest_sorted.
  - intros p. apply nsmallest_stable.
  - intros p. apply nlargest_stable.
Qed.

(** ** C7: percent delta *)

Lemma hundred_nonzero : hundred ≠ 0.
Proof. intros E. apply (f_equal this) in E. by vm_compute in E. Qed.

Lemma thousand_nonzero : thousand ≠ 0.
Proof. intros E. apply (f_equal this) in E. by vm_compute in E. Qed.

(** C7.  For a baseline other than 0 the percent delta is
    [(current - baseline) / baseline * 100]; for the baseline 0 the
    division, which nothing guards, raises [ZeroDivisionError]. *)
Theorem pct_vs_avg_spec (current baseline : Qc) :
  (baseline ≠ 0 ->
   pct_vs_avg current baseline = Ok ((current - baseline) / baseline * hundred)) ∧
  (baseline = 0 -> pct_vs_avg current baseline = Err ZeroDivisionError).
Proof.
  unfold pct_vs_avg, py_div. split; intros H.
  - by destruct (decide (baseline = 0)).
  - by destruct (decide (baseline = 0)).
Qed.

Lemma pct_vs_avg_spec_witness :
  pct_vs_avg 2 1 = Ok ((2 - 1) / 1 * hundred) ∧
  pct_vs_avg 2 0 = Err ZeroDivisionError.
Proof.
  split.
  - apply (proj1 (pct_vs_avg_spec 2 1)). by_decide.
  - by apply (proj2 (pct_vs_avg_spec 2 0)).
Defined.

(** ** C8: conversion to EUR/kWh *)

(** C8.  [to_kwh] is a total function that keeps the rows and their
    order; in each row the index and every column other than
    [price_kwh] are unchanged, and [price_kwh] is the market's price
    divided by 1000, a divisor that is not 0. *)
Theorem to_kwh_exact (country : string) (df : list Row) :
  thousand ≠ 0 ∧
  length (to_kwh country df) = length df ∧
  (forall (i : nat) r, df !! i = Some r ->
     exists r', to_kwh country df !! i = Some r' ∧
       date_cet r' = date_cet r ∧
       (forall c, c ≠ "price_kwh"%string -> cells r' !! c = cells r !! c) ∧
       (forall p, cells r !! country = Some p ->
          cells r' !! "price_kwh"%string = Some (p / thousand))).
Proof.
  unfold to_kwh. split; [apply thousand_nonzero|]. split; [apply length_fmap|].
  intros i r Hi. exists (to_kwh_row country r).
  rewrite list_lookup_fmap, Hi. split; [done|]. split; [done|]. split.
  - intros c Hc. unfold to_kwh_row. simpl.
    destruct (cells r !! country).
    + by rewrite lookup_insert_ne.
    + by rewrite lookup_delete_ne.
  - intros p Hp. unfold to_kwh_row. simpl. rewrite Hp.
    by rewrite lookup_insert_eq.
Qed.

Lemma to_kwh_exact_witness :
  exists r', to_kwh "netherlands_nl" [nl_row 0 1000] !! 0%nat = Some r' ∧
    date_cet r' = 0%Z ∧
    cells r' !! "price_kwh"%string = Some (Qc_of_Z 1000 / thousand).
Proof.
  destruct (proj2 (proj2 (to_kwh_exact "netherlands_nl" [nl_row 0 1000]))
              0%nat (nl_row 0 1000))
    as (r' & Hr' & Hdate & _ & Hp); [reflexivity|].
  exists r'. split; [done|]. split; [done|].
  by apply (Hp (Qc_of_Z 1000)).
Defined.

(** ** C6: the loaded table *)

Lemma date_leb_total r1 r2 : date_leb r1 r2 = true ∨ date_leb r2 r1 = true.
Proof. unfold date_leb. rewrite !bool_decide_eq_true. lia. Qed.

Lemma date_leb_trans r1 r2 r3 :
  date_leb r1 r2 = true -> date_leb r2 r3 = true -> date_leb r1 r3 = true.
Proof. unfold date_leb. rewrite !bool_decide_eq_true. lia. Qed.

Lemma sort_by_date_sorted l :
  StronglySorted (fun a b => (date_cet a ≤ date_cet b)%Z) (sort_by date_leb l).
Proof.
  eapply StronglySorted_impl;
    [|apply (sort_by_sorted date_leb); [apply date_leb_total|apply date_leb_trans]].
  intros a b. unfold date_leb. by rewrite bool_decide_eq_true.
Qed.

Lemma StronglySorted_le_NoDup (l : list Z) :
  StronglySorted Z.le l -> NoDup l -> StronglySorted Z.lt l.
Proof.
  induction 1 as [|x l Hl IH Hx]; intros Hnd; [constructor|].
  apply NoDup_cons in Hnd as [Hnotin Hnd].
  constructor; [by apply IH|].
  rewrite Forall_forall in *. intros y Hy.
  specialize (Hx y Hy). assert (x ≠ y) by (by intros ->). lia.
Qed.

Lemma dropna_date_dates (to_datetime : string -> option Z) (l : list RawRow) :
  date_cet <$> omap dropna_date (coerce to_datetime <$> l)
  = omap to_datetime (raw_date_cet <$> l).
Proof.
  induction l as [|rr l IH]; [done|].
  cbn. unfold dropna_date at 1, coerce at 1. simpl.
  destruct (to_datetime (raw_date_cet rr)); simpl; by rewrite <-IH.
Qed.

Lemma dropna_date_length (to_datetime : string -> option Z) (l : list RawRow) :
  length (omap dropna_date (coerce to_datetime <$> l))
  = length (filter (fun rr => is_Some (to_datetime (raw_date_cet rr))) l).
Proof.
  induction l as [|rr l IH]; [done|].
  rewrite filter_cons, fmap_cons. csimpl.
  unfold dropna_date at 1, coerce at 1. simpl.
  destruct (to_datetime (raw_date_cet rr)) as [t|] eqn:Et.
  - rewrite decide_True by done. simpl. by rewrite <-IH.
  - rewrite decide_False by (by intros [? ?]). by rewrite <-IH.
Qed.

(** C6, as stated, fails: nothing removes a repeated timestamp, so the
    table loaded from a file with the same hour twice has it twice. *)
Lemma load_data_unique_counterexample :
  let df := load_data sample_to_datetime clock_change_raw in
  date_cet <$> rows df
  = [ (20023 * day_ns + 2 * hour_ns)%Z;
      (20023 * day_ns + 2 * hour_ns)%Z;
      (20023 * day_ns + 3 * hour_ns)%Z ] ∧
  ¬ NoDup (date_cet <$> rows df) ∧
  ¬ StronglySorted Z.lt (date_cet <$> rows df).
Proof.
  split; [by vm_compute|]. split; by_decide.
Qed.

(** C6, amended.  After loading, the timestamps never decrease; the
    rows are the input rows whose timestamp parses, each with its parsed
    timestamp, and no other (rows that fail to parse are gone); and the
    timestamps are unique, hence strictly increasing, when the parsed
    timestamps of the input are. *)
Theorem load_data_spec (to_datetime : string -> option Z) (raw : RawFrame) :
  let df := load_data to_datetime raw in
  StronglySorted Z.le (date_cet <$> rows df) ∧
  (forall r, r ∈ rows df ↔
     exists rr t, rr ∈ raw_rows raw ∧ to_datetime (raw_date_cet rr) = Some t ∧
       r = {| date_cet := t; cells := raw_cells rr |}) ∧
  length (rows df)
  = length (filter (fun rr => is_Some (to_datetime (raw_date_cet rr))) (raw_rows raw)) ∧
  (NoDup (omap to_datetime (raw_date_cet <$> raw_rows raw)) ->
   NoDup (date_cet <$> rows df) ∧ StronglySorted Z.lt (date_cet <$> rows df)).
Proof.
  intros df.
  assert (Hsorted : StronglySorted Z.le (date_cet <$> rows df)).
  { eapply StronglySorted_fmap; [|apply sort_by_date_sorted]. auto. }
  assert (Hperm : date_cet <$> rows df ≡ₚ omap to_datetime (raw_date_cet <$> raw_rows raw)).
  { unfold df, load_data. simpl. by rewrite sort_by_Permutation, dropna_date_dates. }
  split; [done|]. split; [|split].
  - intros r. unfold df, load_data. simpl.
    rewrite sort_by_elem_of, list_elem_of_omap. split.
    + intros ([d c] & Hin & Hr). apply list_elem_of_fmap in Hin as (rr & E & Hin).
      unfold coerce in E. injection E as -> ->.
      unfold dropna_date in Hr. simpl in Hr.
      destruct (to_datetime (raw_date_cet rr)) as [t|] eqn:Et; [|done].
      injection Hr as <-. by exists rr, t.
    + intros (rr & t & Hin & Et & ->). exists (coerce to_datetime rr). split.
      * by apply list_elem_of_fmap_2.
      * unfold dropna_date, coerce. simpl. by rewrite Et.
  - unfold df, load_data. simpl. by rewrite sort_by_length, dropna_date_length.
  - intros Hnd. assert (NoDup (date_cet <$> rows df)) by (by rewrite Hperm).
    split; [done|]. by apply StronglySorted_le_NoDup.
Qed.

Lemma load_data_spec_witness :
  let df := load_data sample_to_datetime plain_raw in
  NoDup (date_cet <$> rows df) ∧ StronglySorted Z.lt (date_cet <$> rows df).
Proof.
  apply (proj2 (proj2 (proj2 (load_data_spec sample_to_datetime plain_raw)))).
  by_decide.
Defined.

(** ** C5: the day's slice *)

Lemma StronglySorted_filter {A} (R : relation A) (P : A -> Prop)
    `{!forall x, Decision (P x)} l :
  StronglySorted R l -> StronglySorted R (filter P l).
Proof.
  induction 1 as [|x l Hl IH Hx]; [constructor|].
  rewrite filter_cons. destruct (decide (P x)); [|done].
  constructor; [done|].
  rewrite Forall_forall in *. intros y Hy.
  apply list_elem_of_filter in Hy as [_ Hy]. auto.
Qed.

Lemma project_has_cell country r :
  is_Some (cells (project country r) !! country) ↔ is_Some (cells r !! country).
Proof.
  unfold project. simpl. destruct (cells r !! country) as [p|].
  - rewrite lookup_singleton_eq. split; eauto.
  - by rewrite lookup_empty.
Qed.

Lemma project_some country r p :
  cells r !! country = Some p ->
  project country r = {| date_cet := date_cet r; cells := {[ country := p ]} |}.
Proof. intros H. unfold project. by rewrite H. Qed.

(** The rows of [today], when the market is a column of the table. *)
Lemma today_Ok ts country date :
  country ∈ columns ts ->
  today ts country date
  = Ok (dropna country (project country <$>
          filter (fun r => normalize (date_cet r) = date) (rows ts))).
Proof. intros H. unfold today, loc. by rewrite decide_True. Qed.

Lemma elem_of_today_rows (l : list Row) country date r' :
  r' ∈ dropna country (project country <$>
          filter (fun r => normalize (date_cet r) = date) l) ↔
  exists r p, r ∈ l ∧ normalize (date_cet r) = date ∧
    cells r !! country = Some p ∧
    r' = {| date_cet := date_cet r; cells := {[ country := p ]} |}.
Proof.
  unfold dropna. rewrite list_elem_of_filter, list_elem_of_fmap. split.
  - intros (Hsome & r & -> & Hr). apply list_elem_of_filter in Hr as [Hd Hr].
    apply (proj1 (project_has_cell country r)) in Hsome as [p Hp].
    exists r, p. by rewrite (project_some _ _ _ Hp).
  - intros (r & p & Hr & Hd & Hp & ->). split.
    + simpl. rewrite lookup_singleton_eq. eauto.
    + exists r. split; [by rewrite (project_some _ _ _ Hp)|].
      by apply list_elem_of_filter.
Qed.

Lemma today_rows_sorted (l : list Row) country date :
  StronglySorted (fun a b => (date_cet a ≤ date_cet b)%Z) l ->
  StronglySorted (fun a b => (date_cet a ≤ date_cet b)%Z)
    (dropna country (project country <$>
       filter (fun r => normalize (date_cet r) = date) l)).
Proof.
  intros Hs. apply StronglySorted_filter.
  eapply StronglySorted_fmap; [|by apply StronglySorted_filter].
  auto.
Qed.

(** C5.  For a market of the table and any date: when some row of the
    table is on that date and has a price for the market, [select_slice]
    gives the non-empty list of exactly those rows, reduced to the
    market's column, in time order, all on the selected date; when there
    is no such row, it ends with [EmptySliceError]. *)
Theorem select_slice_spec (gold_df : DataFrame) (country : string) (date : Z) :
  let ts := gold_ts gold_df in
  let valid r :=
    r ∈ rows ts ∧ normalize (date_cet r) = date ∧ is_Some (cells r !! country) in
  country ∈ price_cols ts ->
  ((exists r, valid r) ->
   exists df, select_slice ts country date = Ok df ∧ df ≠ [] ∧
     StronglySorted (fun a b => (date_cet a ≤ date_cet b)%Z) df ∧
     Forall (fun r => normalize (date_cet r) = date) df ∧
     (forall r', r' ∈ df ↔
        exists r p, r ∈ rows ts ∧ normalize (date_cet r) = date ∧
          cells r !! country = Some p ∧
          r' = {| date_cet := date_cet r; cells := {[ country := p ]} |})) ∧
  ((¬ exists r, valid r) -> select_slice ts country date = Err EmptySliceError).
Proof.
  intros ts valid Hcol. unfold select_slice.
  rewrite (today_Ok ts country date Hcol).
  set (l := dropna country _).
  assert (Hl : forall r', r' ∈ l ↔
    exists r p, r ∈ rows ts ∧ normalize (date_cet r) = date ∧
      cells r !! country = Some p ∧
      r' = {| date_cet := date_cet r; cells := {[ country := p ]} |})
    by (intros r'; apply elem_of_today_rows).
  split.
  - intros (r & Hr & Hd & [p Hp]).
    assert (Hin : {| date_cet := date_cet r; cells := {[ country := p ]} |} ∈ l)
      by (apply Hl; by exists r, p).
    exists l. split; [|split; [|split; [|split]]].
    + destruct l; [by apply elem_of_nil in Hin|done].
    + intros E. rewrite E in Hin. by apply elem_of_nil in Hin.
    + apply today_rows_sorted, sort_by_date_sorted.
    + apply Forall_forall. intros r' Hr'.
      apply Hl in Hr' as (r0 & p0 & _ & Hd0 & _ & ->). done.
    + done.
  - intros Hnone. destruct l as [|r' l'] eqn:E; [done|]. exfalso. apply Hnone.
    destruct (proj1 (Hl r')) as (r & p & Hr & Hd & Hp & _); [apply list_elem_of_here|].
    exists r. repeat split; eauto.
Qed.

Lemma select_slice_spec_witness :
  (exists df, select_slice (gold_ts flat_then_peak) "netherlands_nl" 0 = Ok df ∧ df ≠ []) ∧
  select_slice (gold_ts missing_day) "netherlands_nl" 0 = Err EmptySliceError.
Proof.
  split.
  - destruct (select_slice_spec flat_then_peak "netherlands_nl" 0) as [H _];
      [by_decide|].
    destruct H as (df & Hdf & Hne & _); [exists (nl_row 0 1000); by_decide|].
    by exists df.
  - apply (select_slice_spec missing_day "netherlands_nl" 0); [by_decide|].
    intros (r & Hr & _ & [p Hp]).
    change (rows (gold_ts missing_day)) with (rows missing_day) in Hr.
    simpl in Hr.
    repeat (apply elem_of_cons in Hr as [->|Hr]); try done.
    by apply elem_of_nil in Hr.
Defined.

(** ** C9: runs *)

(** One statement of the script after another, on a store. *)
Section steps.
Context {B : Type}.

Lemma bind_new df (k : nat -> St B) s :
  (new df ≫= k) s
  = k (next s) {| heap := <[ next s := df ]> (heap s); next := S (next s);
                  cache := cache s |}.
Proof. reflexivity. Qed.

Lemma bind_get r (k : DataFrame -> St B) s df :
  heap s !! r = Some df -> (get r ≫= k) s = k df s.
Proof. intros H. unfold mbind, St_bind, get. by rewrite H. Qed.

Lemma bind_put r df (k : unit -> St B) s :
  (put r df ≫= k) s
  = k tt {| heap := <[ r := df ]> (heap s); next := next s; cache := cache s |}.
Proof. reflexivity. Qed.

Lemma bind_raise {A} e (k : A -> St B) s : (raise e ≫= k) s = (Err e, s).
Proof. reflexivity. Qed.

Lemma bind_ret {A} (a : A) (k : A -> St B) s : (mret a ≫= k) s = k a s.
Proof. reflexivity. Qed.

Lemma bind_st_rows f r (k : nat -> St B) s df :
  heap s !! r = Some df ->
  (st_rows f r ≫= k) s
  = k (next s) {| heap := <[ next s := {| columns := columns df; rows := f (rows df) |} ]> (heap s);
                  next := S (next s); cache := cache s |}.
Proof. intros H. unfold st_rows, mbind, St_bind, get, new. by rewrite H. Qed.

Lemma bind_st_copy r (k : nat -> St B) s df :
  heap s !! r = Some df ->
  (st_copy r ≫= k) s
  = k (next s) {| heap := <[ next s := df ]> (heap s);
                  next := S (next s); cache := cache s |}.
Proof. intros H. unfold st_copy, mbind, St_bind, get, new. by rewrite H. Qed.

Lemma bind_st_getitem col r (k : nat -> St B) s df :
  heap s !! r = Some df ->
  (st_getitem col r ≫= k) s
  = k (next s) {| heap := <[ next s := {| columns := [col]; rows := project col <$> rows df |} ]> (heap s);
                  next := S (next s); cache := cache s |}.
Proof. intros H. unfold st_getitem, mbind, St_bind, get, new. by rewrite H. Qed.

Lemma bind_st_rename col col' r (k : nat -> St B) s df :
  heap s !! r = Some df ->
  (st_rename col col' r ≫= k) s
  = k (next s)
      {| heap := <[ next s :=
                    {| columns := (fun c => if decide (c = col) then col' else c) <$> columns df;
                       rows := rename_row col col' <$> rows df |} ]> (heap s);
         next := S (next s); cache := cache s |}.
Proof. intros H. unfold st_rename, mbind, St_bind, get, new. by rewrite H. Qed.

Lemma bind_st_setitem col f r (k : unit -> St B) s df :
  heap s !! r = Some df ->
  (st_setitem col f r ≫= k) s
  = k tt {| heap := <[ r := {| columns := if decide (col ∈ columns df) then columns df
                                          else columns df ++ [col];
                               rows := f <$> rows df |} ]> (heap s);
            next := next s; cache := cache s |}.
Proof. intros H. unfold st_setitem, mbind, St_bind, get, put. by rewrite H. Qed.
End steps.

(** A copy does not follow its original: after an item assignment to
    an object, a copy made before still reads as the object did. *)
Lemma copy_then_setitem col f r df s :
  heap s !! r = Some df -> (r < next s)%nat ->
  (c ← st_copy r; st_setitem col f r;; a ← get r; b ← get c; mret (rows a, rows b)) s
  = (Ok (f <$> rows df, rows df),
     {| heap := <[ r := {| columns := if decide (col ∈ columns df) then columns df
                                       else columns df ++ [col];
                            rows := f <$> rows df |} ]>
                  (<[ next s := df ]> (heap s));
        next := S (next s); cache := cache s |}).
Proof.
  intros H Hr. erewrite bind_st_copy by done.
  erewrite bind_st_setitem by st_get.
  erewrite bind_get by st_get. erewrite bind_get by st_get.
  reflexivity.
Qed.

Lemma drop_pred_length {A} (l : list A) x :
  last l = Some x -> drop (length l - 1) l = [x].
Proof.
  intros H. apply last_Some in H as [l' ->].
  rewrite length_app. simpl. replace (length l' + 1 - 1)%nat with (length l') by lia.
  by rewrite drop_app_length.
Qed.


Lemma cell_chart r :
  cell "cents/kWh"
    (rename_row "price_kwh" "cents/kWh"
       (times_into "price_kwh" "price_kwh" hundred (project "price_kwh" r)))
  = cell "price_kwh" r * hundred.
Proof.
  unfold cell, rename_row, times_into, project. cbn [cells date_cet].
  destruct (cells r !! "price_kwh"%string) as [p|]; cbn [default from_option].
  - rewrite lookup_singleton_eq, lookup_insert_eq, lookup_insert_eq. done.
  - rewrite lookup_empty, lookup_delete_eq, lookup_delete_ne by done.
    rewrite lookup_empty. cbn. by rewrite Qcmult_0_l.
Qed.

Lemma cell_table r :
  cell "cents/kWh"
    (project "cents/kWh" (times_into "price_kwh" "cents/kWh" hundred r))
  = cell "price_kwh" r * hundred.
Proof.
  unfold cell, times_into, project. cbn [cells date_cet].
  destruct (cells r !! "price_kwh"%string) as [p|]; cbn [default from_option].
  - rewrite lookup_insert_eq, lookup_singleton_eq. done.
  - rewrite lookup_delete_eq, lookup_empty. cbn. by rewrite Qcmult_0_l.
Qed.

Lemma shown_chart cols l :
  shown "cents/kWh"
    {| columns := cols;
       rows := rename_row "price_kwh" "cents/kWh" <$>
                 (times_into "price_kwh" "price_kwh" hundred <$>
                    (project "price_kwh" <$> l)) |}
  = cents l.
Proof.
  unfold shown, cents. cbn [rows]. rewrite <-!list_fmap_compose.
  apply list_fmap_ext. intros i r _. cbn. by rewrite cell_chart.
Qed.

Lemma shown_table cols l :
  shown "cents/kWh"
    {| columns := cols;
       rows := project "cents/kWh" <$>
                 (times_into "price_kwh" "cents/kWh" hundred <$> l) |}
  = cents l.
Proof.
  unfold shown, cents. cbn [rows]. rewrite <-!list_fmap_compose.
  apply list_fmap_ext. intros i r _. cbn. by rewrite cell_table.
Qed.

Lemma script_page_cps g T c d n s (P : result Outputs * Session -> Prop) :
  heap s !! g = Some T ->
  (forall s', cache s' = cache s -> (next s <= next s')%nat ->
     (forall k, (k < next s)%nat -> heap s' !! k = heap s !! k) ->
     P (page T c d n, s')) ->
  P (script_page g c d n s).
Proof.
  destruct s as [h a ch]. cbn [heap next cache]. intros Hg HP.
  unfold script_page.
  rewrite (bind_st_copy _ _ _ T) by st_get. heap_simpl.
  erewrite bind_st_rows by st_get. heap_simpl.
  erewrite bind_get by st_get.
  change {| columns := columns T; rows := sort_by date_leb (rows T) |} with (gold_ts T).
  assert (Hend : forall (r : result Outputs) s',
            r = page T c d n -> cache s' = ch -> (a <= next s')%nat ->
            (forall k, (k < a)%nat -> heap s' !! k = h !! k) -> P (r, s')).
  { intros r s' -> ? ? ?. by apply HP. }
  clear HP.
  destruct (loc (gold_ts T) d c) as [l|e] eqn:Hloc.
  2:{ rewrite bind_raise. apply Hend; heap_simpl; [|done|lia|].
      - unfold page, select_slice, today. by rewrite Hloc.
      - intros k Hk. by heap_simpl. }
  rewrite bind_new. heap_simpl.
  erewrite bind_st_rows by st_get. heap_simpl. cbn [columns rows].
  erewrite bind_get by st_get. cbn [rows].
  destruct (dropna c l) as [|x l'] eqn:Hdrop.
  { apply Hend; heap_simpl; [|done|lia|].
    - unfold page, select_slice, today. rewrite Hloc. cbn [mbind result_bind].
      by rewrite Hdrop.
    - intros k Hk. by heap_simpl. }
  assert (Hsel : select_slice (gold_ts T) c d = Ok (x :: l')).
  { unfold select_slice, today. rewrite Hloc. cbn [mbind result_bind].
    by rewrite Hdrop. }
  clear Hloc Hdrop. set (L := x :: l') in *.
  erewrite bind_st_setitem by st_get. heap_simpl. cbn [columns rows].
  erewrite bind_st_rows by st_get. heap_simpl. cbn [columns rows].
  erewrite bind_get by st_get. cbn [rows].
  fold (to_kwh c L).
  assert (Hlast : exists r, last (to_kwh c L) = Some r) by (by apply last_is_Some).
  destruct Hlast as [r Hr]. rewrite (drop_pred_length _ _ Hr).
  rewrite bind_ret.
  erewrite bind_get by st_get. cbn [rows].
  assert (Hnow : current_price_kwh (to_kwh c L) = Ok (cell "price_kwh" r)).
  { unfold current_price_kwh, current_row. by rewrite Hr. }
  destruct (pct_vs_avg _ _) as [pct|e] eqn:Hpct.
  2:{ rewrite bind_raise. apply Hend; heap_simpl; [|done|lia|].
      - unfold page. rewrite Hsel. cbn [mbind result_bind]. rewrite Hnow.
        cbn [mbind result_bind]. unfold daily_avg_kwh. by rewrite Hpct.
      - intros k Hk. by heap_simpl. }
  rewrite bind_ret.
  erewrite bind_st_getitem by st_get. heap_simpl. cbn [columns rows].
  erewrite bind_st_copy by st_get. heap_simpl.
  erewrite bind_st_setitem by st_get. heap_simpl. cbn [columns rows].
  erewrite bind_st_rename by st_get. heap_simpl. cbn [columns rows].
  erewrite bind_get by st_get.
  erewrite bind_st_rows by st_get. heap_simpl. cbn [columns rows].
  erewrite bind_st_rows by st_get. heap_simpl. cbn [columns rows].
  erewrite bind_st_copy by st_get. heap_simpl.
  erewrite bind_st_setitem by st_get. heap_simpl. cbn [columns rows].
  erewrite bind_st_getitem by st_get. heap_simpl. cbn [columns rows].
  erewrite bind_get by st_get.
  erewrite bind_st_copy by st_get. heap_simpl.
  erewrite bind_st_setitem by st_get. heap_simpl. cbn [columns rows].
  erewrite bind_st_getitem by st_get. heap_simpl. cbn [columns rows].
  erewrite bind_get by st_get.
  unfold mret, St_ret.
  apply Hend; heap_simpl; [|done|lia|].
  - unfold page. rewrite Hsel. cbn [mbind result_bind]. rewrite Hnow.
    cbn [mbind result_bind]. unfold daily_avg_kwh in *. rewrite Hpct.
    cbn [mbind result_bind].
    rewrite shown_chart, !shown_table. reflexivity.
  - intros k Hk. by heap_simpl.
Qed.

(** The whole script, from the test for the file on. *)
Lemma script_cps (to_datetime : string -> option Z)
    (files : gmap string RawFrame) (path : string) (raw : RawFrame)
    (c : string) (d : Z) (n : nat) (s : Session)
    (P : result Outputs * Session -> Prop) :
  files !! path = Some raw ->
  let T := default (load_data to_datetime raw) (cache s !! path) in
  (forall s', cache s' = <[ path := T ]> (cache s) -> (next s <= next s')%nat ->
     (forall k, (k < next s)%nat -> heap s' !! k = heap s !! k) ->
     P (page T c d n, s')) ->
  P (script to_datetime files path c d n s).
Proof.
  intros Hf T HP. unfold script. rewrite Hf.
  unfold mbind at 1. unfold St_bind, st_load_data.
  destruct s as [h a ch]. cbn [heap next cache] in *.
  destruct (ch !! path) as [df|] eqn:E; cbn [default from_option] in T; subst T.
  - unfold new. cbn [heap next cache].
    apply (script_page_cps a df); [by heap_simpl|]. cbn [heap next cache].
    intros s' Hc Hn Hh. apply HP.
    + rewrite Hc. symmetry. by apply insert_id.
    + lia.
    + intros k Hk. rewrite Hh by lia. by heap_simpl.
  - unfold new. cbn [heap next cache].
    apply (script_page_cps a (load_data to_datetime raw)); [by heap_simpl|].
    cbn [heap next cache].
    intros s' Hc Hn Hh. apply HP.
    + done.
    + lia.
    + intros k Hk. rewrite Hh by lia. by heap_simpl.
Qed.

(** C9.  The script is run as a program on the store of the process:
    objects made by pandas calls, item assignments that change an
    object in place, and the cache of [load_data].  Whatever the store
    holds when a run starts, what the run shows is [page] of the loaded
    table and of the three selections; so two runs on the same loaded
    table with the same selections show the same.  A run leaves every
    object that was there before as it was, and the cache with the
    loaded table under the path and otherwise as it was. *)
Theorem script_outputs_pure (to_datetime : string -> option Z)
    (files1 files2 : gmap string RawFrame) (path1 path2 : string)
    (s1 s2 : Session) (gold_df : DataFrame)
    (country : string) (selected_date : Z) (best_n : nat) :
  script_table to_datetime files1 path1 s1 = Some gold_df ->
  script_table to_datetime files2 path2 s2 = Some gold_df ->
  let r1 := script to_datetime files1 path1 country selected_date best_n s1 in
  let r2 := script to_datetime files2 path2 country selected_date best_n s2 in
  r1.1 = page gold_df country selected_date best_n ∧
  r1.1 = r2.1 ∧
  (forall k, (k < next s1)%nat -> heap r1.2 !! k = heap s1 !! k) ∧
  cache r1.2 = <[ path1 := gold_df ]> (cache s1).
Proof.
  unfold script_table. intros H1 H2.
  destruct (files1 !! path1) as [raw1|] eqn:E1; [|done].
  destruct (files2 !! path2) as [raw2|] eqn:E2; [|done].
  injection H1 as H1. injection H2 as H2.
  assert (Hr2 : (script to_datetime files2 path2 country selected_date best_n s2).1
                = page gold_df country selected_date best_n).
  { apply (script_cps to_datetime files2 path2 raw2); [done|].
    rewrite H2. by intros s' _ _ _. }
  rewrite Hr2.
  apply (script_cps to_datetime files1 path1 raw1); [done|].
  rewrite H1. intros s' Hc Hn Hh. done.
Qed.

Lemma script_outputs_pure_witness :
  let path := "Data/gold.csv"%string in
  let date := (20023 * day_ns)%Z in
  (script sample_to_datetime {[ path := plain_raw ]} path
     "netherlands_nl" date 3 new_session).1
  = (script sample_to_datetime {[ path := clock_change_raw ]} path
       "netherlands_nl" date 3 used_session).1.
Proof.
  intros path date.
  apply (script_outputs_pure sample_to_datetime _ _ path path
           new_session used_session (load_data sample_to_datetime plain_raw));
    by vm_compute.
Defined.

(** The store-passing script and [run], which passes the cache only,
    show the same and leave the same cache. *)
Lemma script_run (to_datetime : string -> option Z)
    (files : gmap string RawFrame) (path : string)
    (c : string) (d : Z) (n : nat) (s : Session) :
  (script to_datetime files path c d n s).1
  = (run to_datetime files path (cache s) c d n).1 ∧
  cache (script to_datetime files path c d n s).2
  = (run to_datetime files path (cache s) c d n).2.
Proof.
  destruct (files !! path) as [raw|] eqn:Hf.
  - apply (script_cps to_datetime files path raw); [done|].
    intros s' Hc _ _. unfold run, load_data_cached. rewrite Hf.
    destruct (cache s !! path) as [df|] eqn:E; cbn [default from_option] in *.
    + split; [done|]. cbn. rewrite Hc. by apply insert_id.
    + by split.
  - unfold script, run. by rewrite Hf.
Qed.

(** ** C10: a day of one row *)

Lemma Qc_of_nat_1 : Qc_of_nat 1 = 1.
Proof. by apply Qc_is_canon. Qed.

Lemma mean_singleton (x : Qc) : mean [x] = x.
Proof.
  unfold mean, sum_Qc. simpl. rewrite Qc_of_nat_1. field. by_decide.
Qed.

Lemma all_equal_singleton (x : Qc) : all_equal [x].
Proof.
  intros a b Ha Hb.
  apply list_elem_of_singleton in Ha, Hb. congruence.
Qed.

Lemma quantile_singleton (q x : Qc) : 0 ≤ q -> q ≤ 1 -> quantile q [x] = x.
Proof.
  intros H0 H1. apply quantile_const; [done..| |apply all_equal_singleton].
  apply list_elem_of_here.
Qed.

(** Every row of the slice has a price for the market. *)
Lemma select_slice_has_cell ts country date df r :
  select_slice ts country date = Ok df -> r ∈ df -> is_Some (cells r !! country).
Proof.
  unfold select_slice, today, loc. destruct (decide (country ∈ columns ts)); [|done].
  simpl. set (l := dropna country _). intros H Hr.
  assert (l = df) as <- by (destruct l; [done|by injection H]).
  by apply list_elem_of_filter in Hr as [Hr _].
Qed.

(** After line 70 such a row has its [price_kwh]. *)
Lemma to_kwh_has_price_kwh country r p :
  cells r !! country = Some p ->
  cells (to_kwh_row country r) !! "price_kwh"%string = Some (p / thousand).
Proof. intros H. unfold to_kwh_row. simpl. by rewrite H, lookup_insert_eq. Qed.

(** C10.  When the slice is one row, of price [x] EUR/kWh: both
    thresholds are [x], the latest hour's price and the day's average are
    [x], and the recommendation for each of them is APPLE PIE; this is
    what the page shows unless [x] is 0, where line 112 raises first. *)
Theorem single_row_day (gold_df : DataFrame) (country : string) (date : Z) (r : Row) :
  select_slice (gold_ts gold_df) country date = Ok [r] ->
  let df := to_kwh country [r] in
  exists p, cells r !! country = Some p ∧
    let x := p / thousand in
    low_thr df = x ∧ high_thr df = x ∧
    current_price_kwh df = Ok x ∧ daily_avg_kwh df = x ∧
    bake_reco (low_thr df) (high_thr df) x = APPLE_PIE ∧
    (forall best_n,
       if decide (x = 0)
       then page gold_df country date best_n = Err ZeroDivisionError
       else exists o, page gold_df country date best_n = Ok o ∧
              out_now o = APPLE_PIE ∧ out_day o = APPLE_PIE).
Proof.
  intros Hsel df.
  destruct (select_slice_has_cell _ _ _ _ r Hsel) as [p Hp]; [apply list_elem_of_here|].
  exists p. split; [done|]. intros x.
  pose proof (to_kwh_has_price_kwh country r p Hp) as Hx.
  assert (Hvals : values "price_kwh" df = [x]).
  { unfold df, to_kwh, values. cbn [fmap list_fmap omap list_omap]. by rewrite Hx. }
  destruct q33_range as (H0 & H1 & H2).
  assert (Hlow : low_thr df = x).
  { unfold low_thr. rewrite Hvals. apply quantile_singleton; [done|].
    eapply Qcle_trans; [exact H1|exact H2]. }
  assert (Hhigh : high_thr df = x).
  { unfold high_thr. rewrite Hvals. apply quantile_singleton; [|done].
    eapply Qcle_trans; [exact H0|exact H1]. }
  assert (Hnow : current_price_kwh df = Ok x).
  { unfold current_price_kwh, current_row, df, to_kwh, cell.
    cbn [fmap list_fmap last mbind result_bind]. by rewrite Hx. }
  assert (Havg : daily_avg_kwh df = x).
  { unfold daily_avg_kwh. rewrite Hvals. apply mean_singleton. }
  assert (Hreco : bake_reco (low_thr df) (high_thr df) x = APPLE_PIE).
  { rewrite Hlow, Hhigh. by apply bake_reco_le. }
  repeat (split; [done|]).
  intros best_n. unfold page. rewrite Hsel.
  cbn [mbind result_bind]. fold df. rewrite Hnow.
  cbn [mbind result_bind]. rewrite Havg.
  unfold pct_vs_avg, py_div. replace (x - x) with (0 : Qc) by ring.
  destruct (decide (x = 0)) as [E|E]; [done|].
  cbn [mbind result_bind].
  eexists. split; [reflexivity|]. by cbn [out_now out_day].
Qed.

Lemma single_row_day_witness :
  let r := project "netherlands_nl" (nl_row 0 1000) in
  let df := to_kwh "netherlands_nl" [r] in
  low_thr df = Qc_of_Z 1000 / thousand ∧
  current_price_kwh df = Ok (Qc_of_Z 1000 / thousand) ∧
  bake_reco (low_thr df) (high_thr df) (Qc_of_Z 1000 / thousand) = APPLE_PIE.
Proof.
  intros r df.
  destruct (single_row_day one_hour "netherlands_nl" 0 r) as (p & Hp & H);
    [by vm_compute|].
  assert (E : cells r !! "netherlands_nl"%string = Some (Qc_of_Z 1000))
    by (by vm_compute).
  rewrite E in Hp. injection Hp as <-.
  destruct H as (Hlow & _ & Hnow & _ & Hreco & _).
  split; [exact Hlow|]. split; [exact Hnow|exact Hreco].
Defined.

(** A day that averages 0: the run ends at line 112. *)
Example page_zero_average :
  page zero_average_day "netherlands_nl" 0 3 = Err ZeroDivisionError.
Proof. by vm_compute. Qed.

(** ** Further facts about runs and ranks *)

(** Once a run has loaded the table, later runs of the session work on
    that same table, whatever the file holds by then. *)
Lemma run_keeps_table (to_datetime : string -> option Z)
    (files files' : gmap string RawFrame) (path : string)
    (cache : gmap string DataFrame) (raw raw' : RawFrame)
    (country : string) (selected_date : Z) (best_n : nat) :
  files !! path = Some raw -> files' !! path = Some raw' ->
  loaded_table to_datetime files' path
    (run to_datetime files path cache country selected_date best_n).2
  = loaded_table to_datetime files path cache.
Proof.
  intros H H'. unfold loaded_table, run, load_data_cached. rewrite H, H'.
  destruct (cache !! path) as [df|] eqn:E; simpl.
  - by rewrite E.
  - by rewrite lookup_insert_eq.
Qed.

(** Ties on a sample day: the three cheapest hours of [flat_then_peak]
    are hours 0, 1, 2 and the three most expensive are hours 3, 0, 1. *)
Example rank_extremes_flat_then_peak :
  let df := to_kwh "netherlands_nl" (rows flat_then_peak) in
  date_cet <$> (rank_extremes df 3).1 = [0; hour_ns; 2 * hour_ns]%Z ∧
  date_cet <$> (rank_extremes df 3).2 = [3 * hour_ns; 0; hour_ns]%Z.
Proof. by vm_compute. Qed.

(** * More of the script *)

(** ** The calendar day of a timestamp (lines 51 and 60) *)

Lemma day_ns_pos : (0 < day_ns)%Z.
Proof. done. Qed.

Lemma normalize_div t : normalize t = (day_ns * (t `div` day_ns))%Z.
Proof. unfold normalize. pose proof (Z.div_mod t day_ns). unfold day_ns in *. lia. Qed.

Lemma normalize_range t : (normalize t ≤ t < normalize t + day_ns)%Z.
Proof.
  unfold normalize. pose proof (Z.mod_pos_bound t day_ns day_ns_pos). lia.
Qed.

Lemma normalize_mono t1 t2 : (t1 ≤ t2)%Z -> (normalize t1 ≤ normalize t2)%Z.
Proof.
  intros H. rewrite !normalize_div.
  apply Z.mul_le_mono_nonneg_l; [done|].
  by apply Z.div_le_mono.
Qed.

Lemma normalize_idemp t : normalize (normalize t) = normalize t.
Proof.
  rewrite (normalize_div t), normalize_div. f_equal.
  rewrite Z.mul_comm. by apply Z.div_mul.
Qed.

(** X1.  The mask of line 60 on a listed date.  For a date [d] that is a
    midnight, as every listed date is, a timestamp normalizes to [d]
    exactly when it lies in the 24 hours from [d] on. *)
Theorem normalize_selects_day (d t : Z) :
  normalize d = d ->
  (normalize t = d ↔ (d ≤ t < d + day_ns)%Z).
Proof.
  intros Hd. split.
  - intros <-. apply normalize_range.
  - intros [H1 H2]. rewrite normalize_div in Hd. rewrite normalize_div.
    assert (t `div` day_ns = d `div` day_ns); [|congruence].
    symmetry. apply (Z.div_unique t day_ns _ (t - d)); unfold day_ns in *; lia.
Qed.

Lemma normalize_selects_day_witness :
  normalize (3 * hour_ns) = 0%Z ↔ (0 ≤ 3 * hour_ns < 0 + day_ns)%Z.
Proof. by apply (normalize_selects_day 0 (3 * hour_ns)). Defined.

(** ** The dates on offer (lines 51-58) *)

Lemma Z_leb_total (x y : Z) : Z.leb x y = true ∨ Z.leb y x = true.
Proof. rewrite !Z.leb_le. lia. Qed.

Lemma Z_leb_trans (x y z : Z) :
  Z.leb x y = true -> Z.leb y z = true -> Z.leb x z = true.
Proof. rewrite !Z.leb_le. lia. Qed.

Lemma elem_of_available_dates ts d :
  d ∈ available_dates ts ↔ exists r, r ∈ rows ts ∧ normalize (date_cet r) = d.
Proof.
  unfold available_dates.
  rewrite sort_by_elem_of, elem_of_remove_dups, list_elem_of_fmap.
  split; intros (r & H1 & H2); exists r; by split.
Qed.

Lemma available_dates_increasing ts : StronglySorted Z.lt (available_dates ts).
Proof.
  unfold available_dates. apply StronglySorted_le_NoDup.
  - eapply StronglySorted_impl;
      [|apply (sort_by_sorted Z.leb); [apply Z_leb_total|apply Z_leb_trans]].
    intros x y. by rewrite Z.leb_le.
  - rewrite sort_by_Permutation. apply NoDup_remove_dups.
Qed.

(** X2.  The dates on offer are strictly increasing (so none is listed
    twice), each is the midnight of the day of some row, and the day of
    every row is listed. *)
Theorem available_dates_spec (ts : DataFrame) :
  StronglySorted Z.lt (available_dates ts) ∧
  (forall d, d ∈ available_dates ts ->
     normalize d = d ∧ exists r, r ∈ rows ts ∧ (d ≤ date_cet r < d + day_ns)%Z) ∧
  (forall r, r ∈ rows ts -> normalize (date_cet r) ∈ available_dates ts).
Proof.
  split; [apply available_dates_increasing|]. split.
  - intros d Hd. apply elem_of_available_dates in Hd as (r & Hr & <-).
    split; [apply normalize_idemp|]. exists r. split; [done|apply normalize_range].
  - intros r Hr. apply elem_of_available_dates. by exists r.
Qed.

Lemma available_dates_spec_witness :
  normalize 0 = 0%Z ∧
  exists r, r ∈ rows flat_then_peak ∧ (0 ≤ date_cet r < 0 + day_ns)%Z.
Proof.
  apply (proj1 (proj2 (available_dates_spec flat_then_peak)) 0%Z).
  by_decide.
Defined.

Lemma last_sorted_max (l : list Z) (x y : Z) :
  StronglySorted Z.lt l -> last l = Some x -> y ∈ l -> (y ≤ x)%Z.
Proof.
  intros Hs Hl Hy. apply last_Some in Hl as [l' ->].
  apply elem_of_app in Hy as [Hy|Hy].
  - apply Z.lt_le_incl.
    eapply (StronglySorted_app_1_elem_of _ l' [x]); [done..|apply list_elem_of_here].
  - apply list_elem_of_singleton in Hy. lia.
Qed.

Lemma default_date_last ts : default_date ts = last (available_dates ts).
Proof.
  unfold default_date, selectbox_default. rewrite last_lookup.
  by rewrite Nat.sub_1_r.
Qed.

(** X3.  The date shown first is the most recent one: it is on offer, no
    date on offer is later, it is the day of the latest timestamp of
    the table, and there is one as soon as the table has a row. *)
Theorem default_date_most_recent (ts : DataFrame) :
  (forall d, default_date ts = Some d ->
     d ∈ available_dates ts ∧
     (forall d', d' ∈ available_dates ts -> (d' ≤ d)%Z) ∧
     (forall r, r ∈ rows ts -> (date_cet r < d + day_ns)%Z)) ∧
  (rows ts ≠ [] -> is_Some (default_date ts)).
Proof.
  rewrite default_date_last. split.
  - intros d Hd.
    assert (Hmax : forall d', d' ∈ available_dates ts -> (d' ≤ d)%Z).
    { intros d' Hd'. eapply last_sorted_max; [apply available_dates_increasing|done..]. }
    split; [by apply last_Some_elem_of|]. split; [done|].
    intros r Hr.
    assert (Hin : normalize (date_cet r) ∈ available_dates ts)
      by (apply elem_of_available_dates; by exists r).
    apply Hmax in Hin. pose proof (normalize_range (date_cet r)). lia.
  - intros Hne. apply last_is_Some. intros E.
    destruct (rows ts) as [|r l] eqn:Er; [done|].
    assert (Hin : normalize (date_cet r) ∈ available_dates ts).
    { apply elem_of_available_dates. exists r. rewrite Er. split; [apply list_elem_of_here|done]. }
    rewrite E in Hin. by apply elem_of_nil in Hin.
Qed.

Lemma default_date_most_recent_witness :
  default_date flat_then_peak = Some 0%Z ∧ 0%Z ∈ available_dates flat_then_peak.
Proof.
  assert (E : default_date flat_then_peak = Some 0%Z) by (by vm_compute).
  split; [done|].
  by apply (proj1 (default_date_most_recent flat_then_peak) 0%Z).
Defined.

(** ** The market shown first (lines 43-49) *)

Lemma py_index_elem_of x l :
  x ∈ l -> exists i, py_index x l = Some i ∧ l !! i = Some x ∧
    forall j, (j < i)%nat -> l !! j ≠ Some x.
Proof.
  induction l as [|y l IH]; intros Hx; [by apply elem_of_nil in Hx|].
  simpl. destruct (decide (y = x)) as [->|Hne].
  - exists 0%nat. split; [done|]. split; [done|]. intros j Hj. lia.
  - apply elem_of_cons in Hx as [->|Hx]; [done|].
    destruct (IH Hx) as (i & Hi & Hl & Hfirst). exists (S i). rewrite Hi.
    split; [done|]. split; [done|]. intros [|j] Hj; simpl.
    + congruence.
    + apply Hfirst. lia.
Qed.

(** X4.  The market shown first is [netherlands_nl] when the table has that
    column and the first column otherwise; so it is a column of the
    table whenever the table has a market column at all. *)
Theorem default_country_spec (ts : DataFrame) :
  ("netherlands_nl"%string ∈ price_cols ts ->
   default_country ts = Some "netherlands_nl"%string) ∧
  ("netherlands_nl"%string ∉ price_cols ts ->
   default_country ts = head (price_cols ts)) ∧
  (forall c, default_country ts = Some c -> c ∈ price_cols ts) ∧
  (price_cols ts ≠ [] -> is_Some (default_country ts)).
Proof.
  unfold default_country, default_country_index, selectbox_default.
  destruct (decide ("netherlands_nl"%string ∈ price_cols ts)) as [Hin|Hnot].
  - destruct (py_index_elem_of _ _ Hin) as (i & Hi & Hl & _).
    rewrite Hi. simpl. rewrite Hl.
    split; [done|]. split; [done|]. split; [|eauto].
    intros c [= <-]. done.
  - simpl. rewrite <-head_lookup.
    split; [done|]. split; [done|]. split.
    + intros c Hc. by apply head_Some_elem_of.
    + intros Hne. by apply head_is_Some.
Qed.

Lemma default_country_spec_witness :
  default_country flat_then_peak = Some "netherlands_nl"%string.
Proof.
  apply (proj1 (default_country_spec flat_then_peak)). by_decide.
Defined.

(** ** What the slice is made of (lines 60-70) *)

Lemma select_slice_Ok_inv ts country date df :
  select_slice ts country date = Ok df ->
  country ∈ columns ts ∧ df ≠ [] ∧
  df = dropna country (project country <$>
         filter (fun r => normalize (date_cet r) = date) (rows ts)).
Proof.
  unfold select_slice, today, loc.
  destruct (decide (country ∈ columns ts)); [|done]. simpl.
  set (l := dropna country _). intros H.
  destruct l eqn:E; [done|]. injection H as <-. done.
Qed.

Lemma select_slice_Err_inv ts country date e :
  select_slice ts country date = Err e ->
  (e = KeyError ∧ country ∉ columns ts) ∨
  (e = EmptySliceError ∧ country ∈ columns ts).
Proof.
  unfold select_slice, today, loc.
  destruct (decide (country ∈ columns ts)); simpl.
  - destruct (dropna country _); [|done]. intros [= <-]. by right.
  - intros [= <-]. by left.
Qed.

Lemma select_slice_elem_of ts country date df r' :
  select_slice ts country date = Ok df ->
  r' ∈ df ↔
  exists r p, r ∈ rows ts ∧ normalize (date_cet r) = date ∧
    cells r !! country = Some p ∧
    r' = {| date_cet := date_cet r; cells := {[ country := p ]} |}.
Proof.
  intros H. apply select_slice_Ok_inv in H as (_ & _ & ->).
  apply elem_of_today_rows.
Qed.

(** X5.  A slice can only be had for a date on offer: for any other date
    the script stops with "No data for selected date" (or with
    [KeyError] when the market is no column). *)
Theorem select_slice_date_listed (ts : DataFrame) (country : string) (date : Z) :
  (forall df, select_slice ts country date = Ok df -> date ∈ available_dates ts) ∧
  (date ∉ available_dates ts -> country ∈ price_cols ts ->
   select_slice ts country date = Err EmptySliceError).
Proof.
  assert (H1 : forall df, select_slice ts country date = Ok df ->
                          date ∈ available_dates ts).
  { intros df H. pose proof (select_slice_Ok_inv _ _ _ _ H) as (_ & Hne & _).
    destruct df as [|r' df]; [done|].
    destruct (proj1 (select_slice_elem_of _ _ _ _ r' H)) as (r & p & Hr & Hd & _);
      [apply list_elem_of_here|].
    apply elem_of_available_dates. by exists r. }
  split; [done|]. intros Hnot Hcol.
  destruct (select_slice ts country date) as [df|e] eqn:E.
  - destruct Hnot. by apply (H1 df).
  - apply select_slice_Err_inv in E as [[_ ?]|[-> _]]; done.
Qed.

Lemma select_slice_date_listed_witness :
  select_slice flat_then_peak "netherlands_nl" day_ns = Err EmptySliceError.
Proof.
  apply (proj2 (select_slice_date_listed flat_then_peak "netherlands_nl" day_ns));
    by_decide.
Defined.

Lemma values_cons c r l :
  values c (r :: l)
  = match cells r !! c with Some p => p :: values c l | None => values c l end.
Proof. reflexivity. Qed.

Lemma values_to_kwh_length country df :
  Forall (fun r => is_Some (cells r !! country)) df ->
  length (values "price_kwh" (to_kwh country df)) = length df.
Proof.
  induction 1 as [|r df [p Hp] _ IH]; [done|].
  unfold to_kwh in *. rewrite fmap_cons, values_cons.
  rewrite (to_kwh_has_price_kwh _ _ _ Hp). simpl. by rewrite IH.
Qed.

(** X6.  Each row of the slice carries the market's column and nothing
    else; line 70 adds [price_kwh] to each, so the mean and the
    quantiles are taken over as many values as the slice has rows. *)
Theorem slice_columns (ts : DataFrame) (country : string) (date : Z) (df : list Row) :
  select_slice ts country date = Ok df ->
  Forall (fun r => dom (cells r) = {[ country ]}) df ∧
  Forall (fun r => dom (cells r) = {[ country; "price_kwh"%string ]})
    (to_kwh country df) ∧
  length (values "price_kwh" (to_kwh country df)) = length df.
Proof.
  intros H.
  assert (Hcell : Forall (fun r => exists p, cells r = {[ country := p ]}) df).
  { apply Forall_forall. intros r' Hr'.
    destruct (proj1 (select_slice_elem_of _ _ _ _ r' H) Hr')
      as (r & p & _ & _ & _ & ->).
    by exists p. }
  clear H. split; [|split].
  - eapply Forall_impl; [exact Hcell|]. intros r [p ->]. apply dom_singleton_L.
  - unfold to_kwh. apply Forall_fmap. eapply Forall_impl; [exact Hcell|].
    intros r [p Hp]. unfold to_kwh_row. simpl. rewrite Hp, lookup_singleton_eq.
    rewrite dom_insert_L, dom_singleton_L. apply (comm_L (∪)).
  - apply values_to_kwh_length. eapply Forall_impl; [exact Hcell|].
    intros r [p ->]. rewrite lookup_singleton_eq. eauto.
Qed.

Lemma slice_columns_witness :
  exists df, select_slice flat_then_peak "netherlands_nl" 0 = Ok df ∧
    length (values "price_kwh" (to_kwh "netherlands_nl" df)) = length df.
Proof.
  eexists. split; [by vm_compute|].
  eapply (slice_columns flat_then_peak "netherlands_nl" 0). by vm_compute.
Defined.

(** ** How a page ends (lines 60-112) *)

Lemma current_row_to_kwh country df r :
  last df = Some r -> current_row (to_kwh country df) = Ok (to_kwh_row country r).
Proof.
  intros H. apply last_Some in H as [l ->].
  unfold current_row, to_kwh. rewrite fmap_app.
  change (to_kwh_row country <$> [r]) with [to_kwh_row country r].
  by rewrite last_snoc.
Qed.

Lemma pct_vs_avg_Ok_inv c b d :
  pct_vs_avg c b = Ok d -> b ≠ 0 ∧ d = (c - b) / b * hundred.
Proof.
  unfold pct_vs_avg, py_div. destruct (decide (b = 0)); [done|].
  simpl. by intros [= <-].
Qed.

Lemma pct_vs_avg_Err_inv c b e :
  pct_vs_avg c b = Err e -> e = ZeroDivisionError ∧ b = 0.
Proof.
  unfold pct_vs_avg, py_div. destruct (decide (b = 0)); [|done].
  simpl. by intros [= <-].
Qed.

(** X7.  A page ends in one of four ways, each with its own cause:
    [KeyError] when the market is no column of the table;
    [EmptySliceError] when it is one but no row of the date has a price
    for it; [ZeroDivisionError] when there is a slice and its average is
    0; the full page otherwise.  It never ends in [IndexError]: the
    latest hour is read from a slice that is not empty. *)
Theorem page_outcome (gold_df : DataFrame) (country : string) (date : Z) (best_n : nat) :
  match page gold_df country date best_n with
  | Ok o =>
      exists df, select_slice (gold_ts gold_df) country date = Ok df ∧
        daily_avg_kwh (to_kwh country df) ≠ 0
  | Err KeyError => country ∉ price_cols (gold_ts gold_df)
  | Err EmptySliceError =>
      country ∈ price_cols (gold_ts gold_df) ∧
      select_slice (gold_ts gold_df) country date = Err EmptySliceError
  | Err ZeroDivisionError =>
      exists df, select_slice (gold_ts gold_df) country date = Ok df ∧
        daily_avg_kwh (to_kwh country df) = 0
  | Err IndexError | Err DataNotFoundError => False
  end.
Proof.
  unfold page.
  destruct (select_slice (gold_ts gold_df) country date) as [df|e] eqn:Hsel.
  - cbn [mbind result_bind].
    pose proof (select_slice_Ok_inv _ _ _ _ Hsel) as (_ & Hne & _).
    apply last_is_Some in Hne as [r Hr].
    unfold current_price_kwh. rewrite (current_row_to_kwh _ _ _ Hr).
    cbn [mbind result_bind].
    destruct (pct_vs_avg _ _) as [d|e] eqn:Hpct; cbn [mbind result_bind].
    + apply pct_vs_avg_Ok_inv in Hpct as [Hb _]. by exists df.
    + apply pct_vs_avg_Err_inv in Hpct as [-> Hb]. by exists df.
  - cbn [mbind result_bind].
    by destruct (select_slice_Err_inv _ _ _ _ Hsel) as [[-> H]|[-> H]].
Qed.

(** ** The latest hour (lines 73-75) *)

Lemma select_slice_sorted gold_df country date df :
  select_slice (gold_ts gold_df) country date = Ok df ->
  StronglySorted (fun a b => (date_cet a ≤ date_cet b)%Z) df.
Proof.
  intros H. apply select_slice_Ok_inv in H as (_ & _ & ->).
  apply today_rows_sorted, sort_by_date_sorted.
Qed.

(** X8.  The hour shown as the latest is the last row of the slice: no row
    of the slice is later, it is on the selected date, and its price is
    the market's price of that row divided by 1000. *)
Theorem latest_hour (gold_df : DataFrame) (country : string) (date : Z) (df : list Row) :
  select_slice (gold_ts gold_df) country date = Ok df ->
  exists r p, last df = Some r ∧ cells r !! country = Some p ∧
    current_time (to_kwh country df) = Ok (date_cet r) ∧
    current_price_kwh (to_kwh country df) = Ok (p / thousand) ∧
    normalize (date_cet r) = date ∧
    (forall r', r' ∈ df -> (date_cet r' ≤ date_cet r)%Z).
Proof.
  intros H.
  pose proof (select_slice_Ok_inv _ _ _ _ H) as (_ & Hne & _).
  pose proof (select_slice_sorted _ _ _ _ H) as Hs.
  apply last_is_Some in Hne as [r Hr].
  destruct (proj1 (select_slice_elem_of _ _ _ _ r H)) as (r0 & p & _ & Hd & Hp & Er);
    [by apply last_Some_elem_of|].
  assert (Hp' : cells r !! country = Some p)
    by (rewrite Er; simpl; apply lookup_singleton_eq).
  exists r, p. split; [done|]. split; [done|].
  unfold current_time, current_price_kwh.
  rewrite (current_row_to_kwh _ _ _ Hr). cbn [mbind result_bind].
  split; [done|]. split.
  { unfold cell. by rewrite (to_kwh_has_price_kwh _ _ _ Hp'). }
  split; [by rewrite Er|].
  intros r' Hr'. apply last_Some in Hr as [l ->].
  apply elem_of_app in Hr' as [Hr'|Hr'].
  - apply (StronglySorted_app_1_elem_of
             (fun a b : Row => (date_cet a ≤ date_cet b)%Z) l [r] r' r Hs Hr').
    apply list_elem_of_here.
  - apply list_elem_of_singleton in Hr' as ->. lia.
Qed.

Lemma latest_hour_witness :
  exists df r, select_slice (gold_ts flat_then_peak) "netherlands_nl" 0 = Ok df ∧
    last df = Some r ∧ current_time (to_kwh "netherlands_nl" df) = Ok (date_cet r).
Proof.
  eexists.
  edestruct (latest_hour flat_then_peak "netherlands_nl" 0)
    as (r & p & Hr & _ & Ht & _); [by vm_compute|].
  exists r. split; [reflexivity|]. by split.
Defined.

(** ** The thresholds within the day's prices (lines 94-95) *)

(** The two sorted values that [quantile] interpolates between. *)
Lemma quantile_between (q : Qc) (l : list Qc) :
  0 ≤ q -> q ≤ 1 -> l ≠ [] ->
  exists a b, a ∈ l ∧ b ∈ l ∧ a ≤ quantile q l ∧ quantile q l ≤ b.
Proof.
  intros H0 H1 Hne. unfold quantile.
  set (s := sort_by Qc_leb l).
  assert (Hlen : (0 < length s)%nat).
  { unfold s. rewrite sort_by_length. destruct l; [done|simpl; lia]. }
  pose proof (Qc_of_nat_nonneg (length s - 1)) as Hn.
  set (h := q * Qc_of_nat (length s - 1)).
  assert (Hh0 : 0 ≤ h).
  { unfold h. revert H0 Hn. generalize (Qc_of_nat (length s - 1)). clear.
    intros. qc. nra. }
  assert (Hh1 : h ≤ Qc_of_nat (length s - 1)).
  { unfold h. revert H1 Hn. generalize (Qc_of_nat (length s - 1)). clear.
    intros. qc. nra. }
  pose proof (floor_bounds _ _ Hh0 Hh1) as [Hf0 Hf1].
  pose proof (floor_frac h) as [Hg0 Hg1].
  unfold interpolate.
  set (i := Z.to_nat (Qfloor h)).
  assert (Hi : (i <= length s - 1)%nat) by lia.
  assert (Hab : nth i s 0 ≤ nth (Nat.min (i + 1) (length s - 1)) s 0).
  { apply sorted_nth_le; [apply sort_Qc_sorted|lia..]. }
  exists (nth i s 0), (nth (Nat.min (i + 1) (length s - 1)) s 0).
  split; [|split; [|split]].
  - apply (sort_by_elem_of Qc_leb), list_elem_of_In, nth_In. fold s. lia.
  - apply (sort_by_elem_of Qc_leb), list_elem_of_In, nth_In. fold s. lia.
  - by apply lerp_lower.
  - by apply lerp_upper.
Qed.

(** X10.  Both thresholds lie within the day's prices, in this order:
    [lo <= low_thr <= high_thr <= hi]. *)
Theorem thresholds_in_range (df : list Row) (lo hi : Qc) :
  values "price_kwh" df ≠ [] ->
  Forall (fun x => lo ≤ x ∧ x ≤ hi) (values "price_kwh" df) ->
  lo ≤ low_thr df ∧ low_thr df ≤ high_thr df ∧ high_thr df ≤ hi.
Proof.
  intros Hne H. destruct q33_range as (H0 & H1 & H2).
  rewrite Forall_forall in H. unfold low_thr, high_thr.
  split; [|split].
  - destruct (quantile_between q33 _ H0 (Qcle_trans _ _ _ H1 H2) Hne)
      as (a & _ & Ha & _ & Hq & _).
    eapply Qcle_trans; [apply (H a Ha)|done].
  - by apply quantile_mono.
  - destruct (quantile_between q66 _ (Qcle_trans _ _ _ H0 H1) H2 Hne)
      as (_ & b & _ & Hb & _ & Hq).
    eapply Qcle_trans; [done|apply (H b Hb)].
Qed.

Lemma thresholds_in_range_witness :
  let df := to_kwh "netherlands_nl" (rows flat_then_peak) in
  1 ≤ low_thr df ∧ low_thr df ≤ high_thr df ∧ high_thr df ≤ 2.
Proof.
  intros df. apply (thresholds_in_range df 1 2); by_decide.
Defined.

(** ** Recommendations at the ends of the day's prices (lines 94-106) *)

(** X11.  With the day's thresholds, a price that no price of the day
    undercuts is APPLE PIE, and a price that no price of the day
    exceeds is never FLEXIBLE: it is CHEESECAKE unless it is at or below
    the low threshold. *)
Theorem bake_reco_extremes (df : list Row) (x : Qc) :
  values "price_kwh" df ≠ [] ->
  (Forall (fun y => x ≤ y) (values "price_kwh" df) ->
   bake_reco (low_thr df) (high_thr df) x = APPLE_PIE) ∧
  (Forall (fun y => y ≤ x) (values "price_kwh" df) ->
   bake_reco (low_thr df) (high_thr df) x
   = if bool_decide (x ≤ low_thr df) then APPLE_PIE else CHEESECAKE).
Proof.
  intros Hne. destruct q33_range as (H0 & H1 & H2). split; intros H.
  - apply bake_reco_le. unfold low_thr.
    destruct (quantile_between q33 _ H0 (Qcle_trans _ _ _ H1 H2) Hne)
      as (a & _ & Ha & _ & Hq & _).
    rewrite Forall_forall in H. eapply Qcle_trans; [apply (H a Ha)|done].
  - assert (Hhigh : high_thr df ≤ x).
    { unfold high_thr.
      destruct (quantile_between q66 _ (Qcle_trans _ _ _ H0 H1) H2 Hne)
        as (_ & b & _ & Hb & _ & Hq).
      rewrite Forall_forall in H. eapply Qcle_trans; [done|apply (H b Hb)]. }
    unfold bake_reco. destruct (bool_decide (x ≤ low_thr df)); [done|].
    by rewrite bool_decide_eq_true_2.
Qed.

Lemma bake_reco_extremes_witness :
  let df := to_kwh "netherlands_nl" (rows flat_then_peak) in
  bake_reco (low_thr df) (high_thr df) 1 = APPLE_PIE.
Proof.
  intros df. apply (proj1 (bake_reco_extremes df 1 ltac:(by_decide))). by_decide.
Defined.

(** ** The sign of the percent delta (line 112) *)

Lemma pct_sign_aux (c b d k : Qc) :
  0 < k -> d * b = (c - b) * k ->
  (b ≠ 0 -> (d = 0 ↔ c = b)) ∧
  (0 < b -> (0 < d ↔ b < c)) ∧
  (b < 0 -> (0 < d ↔ c < b)).
Proof.
  intros Hk E. apply (f_equal this) in E. 
  assert (E' : (d * b == (c - b) * k)%Q).
  { revert E. unfold Qcmult, Qcminus, Qcplus, Qcopp. cbn [this Q2Qc].
    intros E. rewrite <-(Qred_correct (d * b)), E.
    rewrite !Qred_correct. reflexivity. }
  clear E. split; [|split].
  - intros Hb. split.
    + intros ->. apply Qc_is_canon.
      assert (Hb' : ¬ (b == 0)%Q) by (intros Hq; by apply Hb, Qc_is_canon).
      revert Hk E' Hb'. change (this 0) with 0%Q. clear. intros. qc. nra.
    + intros ->. apply Qc_is_canon.
      assert (Hb' : ¬ (b == 0)%Q) by (intros Hq; by apply Hb, Qc_is_canon).
      revert Hk E' Hb'. clear. intros. qc. change (this 0) with 0%Q. nra.
  - intros Hb. split; intros H; revert Hk E' Hb H; clear; intros; qc; nra.
  - intros Hb. split; intros H; revert Hk E' Hb H; clear; intros; qc; nra.
Qed.

Lemma hundred_pos : 0 < hundred.
Proof. by_decide. Qed.

(** X12.  When the percent delta is defined, it is 0 exactly when the
    latest price equals the average; for a positive average it is
    positive exactly when the latest price is above the average; for a
    negative average the sign is the other way round. *)
Theorem pct_vs_avg_sign (current baseline d : Qc) :
  pct_vs_avg current baseline = Ok d ->
  (d = 0 ↔ current = baseline) ∧
  (0 < baseline -> (0 < d ↔ baseline < current)) ∧
  (baseline < 0 -> (0 < d ↔ current < baseline)).
Proof.
  intros H. apply pct_vs_avg_Ok_inv in H as [Hb ->].
  assert (E : (current - baseline) / baseline * hundred * baseline
              = (current - baseline) * hundred) by (by field).
  destruct (pct_sign_aux _ _ _ _ hundred_pos E) as (H1 & H2 & H3). auto.
Qed.

Lemma pct_vs_avg_sign_witness :
  (0 : Qc) < (2 - 1) / 1 * hundred ↔ (1 : Qc) < 2.
Proof.
  apply (proj1 (proj2 (pct_vs_avg_sign 2 1 ((2 - 1) / 1 * hundred) ltac:(by vm_compute)))).
  by_decide.
Defined.

(** ** The chart (lines 147-151) *)

Lemma cents_to_kwh_row country r p :
  cells r !! country = Some p ->
  cell "price_kwh" (to_kwh_row country r) * hundred = p / thousand * hundred.
Proof.
  intros H. unfold cell. by rewrite (to_kwh_has_price_kwh _ _ _ H).
Qed.

(** X13.  The chart has one point per row of the slice, in the slice's
    order, at the row's timestamp; its value is the market's price of
    that row divided by 1000 and then multiplied by 100. *)
Theorem chart_points (gold_df : DataFrame) (country : string) (date : Z)
    (best_n : nat) (o : Outputs) :
  page gold_df country date best_n = Ok o ->
  exists df, select_slice (gold_ts gold_df) country date = Ok df ∧
    length (out_chart o) = length df ∧
    forall (i : nat) r, df !! i = Some r ->
      out_chart o !! i = Some (date_cet r, cell country r / thousand * hundred).
Proof.
  unfold page. intros H.
  destruct (select_slice (gold_ts gold_df) country date) as [df|e] eqn:Hsel; [|done].
  cbn [mbind result_bind] in H.
  destruct (current_price_kwh _) as [x|e]; [|done]. cbn [mbind result_bind] in H.
  destruct (pct_vs_avg _ _) as [d|e]; [|done]. cbn [mbind result_bind] in H.
  injection H as <-. cbn [out_chart].
  exists df. split; [done|]. unfold cents, to_kwh. split.
  - by rewrite !length_fmap.
  - intros i r Hi. rewrite !list_lookup_fmap, Hi. simpl.
    destruct (select_slice_has_cell _ _ _ _ r Hsel) as [p Hp];
      [by eapply list_elem_of_lookup_2|].
    rewrite (cents_to_kwh_row _ _ _ Hp). unfold cell. by rewrite Hp.
Qed.

Lemma chart_points_witness :
  exists o, page flat_then_peak "netherlands_nl" 0 3 = Ok o ∧
    length (out_chart o) = 4%nat.
Proof.
  eexists. split; [by vm_compute|].
  edestruct (chart_points flat_then_peak "netherlands_nl" 0 3)
    as (df & Hdf & Hlen & _); [by vm_compute|].
  rewrite Hlen.
  assert (E : select_slice (gold_ts flat_then_peak) "netherlands_nl" 0
              = Ok (project "netherlands_nl" <$> rows flat_then_peak))
    by (by vm_compute).
  rewrite E in Hdf. by injection Hdf as <-.
Defined.

(** ** The ranked tables (lines 157-174) *)

Lemma take_drop_sorted_le {A} (R : relation A) (n : nat) (s : list A) a b :
  StronglySorted R s -> a ∈ take n s -> b ∈ drop n s -> R a b.
Proof.
  intros Hs Ha Hb. rewrite <-(take_drop n s) in Hs.
  by eapply StronglySorted_app_1_elem_of.
Qed.

Lemma sort_by_price_leb_sorted df :
  StronglySorted (fun a b => cell "price_kwh" a ≤ cell "price_kwh" b)
    (sort_by price_leb df).
Proof.
  eapply StronglySorted_impl;
    [|apply (sort_by_sorted price_leb); [apply price_leb_total|apply price_leb_trans]].
  intros a b. unfold price_leb, Qc_leb. by rewrite bool_decide_eq_true.
Qed.

Lemma sort_by_price_geb_sorted df :
  StronglySorted (fun a b => cell "price_kwh" b ≤ cell "price_kwh" a)
    (sort_by price_geb df).
Proof.
  eapply StronglySorted_impl;
    [|apply (sort_by_sorted price_geb); [apply price_geb_total|apply price_geb_trans]].
  intros a b. unfold price_geb, Qc_geb. by rewrite bool_decide_eq_true.
Qed.

(** X14.  The cheapest [n] rows really are the cheapest: the slice splits
    into them and a rest none of whose rows is cheaper than any of
    them; and likewise the [n] most expensive rows and a rest none of
    whose rows is more expensive. *)
Theorem rank_extremes_partition (df : list Row) (n : nat) :
  (exists rest, df ≡ₚ nsmallest n df ++ rest ∧
     forall a b, a ∈ nsmallest n df -> b ∈ rest ->
       cell "price_kwh" a ≤ cell "price_kwh" b) ∧
  (exists rest, df ≡ₚ nlargest n df ++ rest ∧
     forall a b, a ∈ nlargest n df -> b ∈ rest ->
       cell "price_kwh" b ≤ cell "price_kwh" a).
Proof.
  split.
  - exists (drop n (sort_by price_leb df)). split.
    + unfold nsmallest. by rewrite take_drop, sort_by_Permutation.
    + intros a b Ha Hb.
      apply (take_drop_sorted_le _ n (sort_by price_leb df) a b
               (sort_by_price_leb_sorted df) Ha Hb).
  - exists (drop n (sort_by price_geb df)). split.
    + unfold nlargest. by rewrite take_drop, sort_by_Permutation.
    + intros a b Ha Hb.
      apply (take_drop_sorted_le _ n (sort_by price_geb df) a b
               (sort_by_price_geb_sorted df) Ha Hb).
Qed.

Lemma head_sorted_least {A} (R : relation A) (s : list A) x y :
  (forall a, R a a) -> StronglySorted R s -> head s = Some x -> y ∈ s -> R x y.
Proof.
  intros Hrefl Hs Hx Hy. destruct s as [|x' s]; [done|].
  injection Hx as ->. apply StronglySorted_cons in Hs as [Hall _].
  apply elem_of_cons in Hy as [->|Hy]; [done|].
  rewrite Forall_forall in Hall. auto.
Qed.

Lemma head_take_sort {A} (leb : A -> A -> bool) (n : nat) (l : list A) :
  (1 <= n)%nat -> l ≠ [] ->
  exists x, head (take n (sort_by leb l)) = Some x ∧
    head (sort_by leb l) = Some x ∧ x ∈ l.
Proof.
  intros Hn Hl.
  destruct (sort_by leb l) as [|x s] eqn:E.
  { apply (f_equal length) in E. rewrite sort_by_length in E.
    destruct l; [done|simpl in E; lia]. }
  exists x. destruct n as [|n]; [lia|]. split; [done|]. split; [done|].
  apply (sort_by_elem_of leb). rewrite E. apply list_elem_of_here.
Qed.

(** X15.  For a slice that is not empty and [n] at least 1, as the slider
    gives it, both tables have between 1 and [n] rows; the first row of
    the cheapest table has the lowest price of the day and the first
    row of the other the highest. *)
Theorem ranked_tables_heads (df : list Row) (n : nat) :
  (1 <= n)%nat -> df ≠ [] ->
  (1 <= length (nsmallest n df) <= n)%nat ∧
  (1 <= length (nlargest n df) <= n)%nat ∧
  exists lo hi, head (nsmallest n df) = Some lo ∧ head (nlargest n df) = Some hi ∧
    lo ∈ df ∧ hi ∈ df ∧
    forall r, r ∈ df ->
      cell "price_kwh" lo ≤ cell "price_kwh" r ∧
      cell "price_kwh" r ≤ cell "price_kwh" hi.
Proof.
  intros Hn Hne.
  assert (Hlen : (1 <= length df)%nat) by (destruct df; [done|simpl; lia]).
  unfold nsmallest, nlargest.
  split; [rewrite length_take, sort_by_length; lia|].
  split; [rewrite length_take, sort_by_length; lia|].
  destruct (head_take_sort price_leb n df Hn Hne) as (lo & Hlo & Hlo' & Hlo_in).
  destruct (head_take_sort price_geb n df Hn Hne) as (hi & Hhi & Hhi' & Hhi_in).
  exists lo, hi. repeat (split; [done|]).
  intros r Hr. split.
  - apply (head_sorted_least
             (fun a b => cell "price_kwh" a ≤ cell "price_kwh" b)
             (sort_by price_leb df) lo r);
      [intros a; apply Qcle_refl|apply sort_by_price_leb_sorted|done|].
    by apply sort_by_elem_of.
  - apply (head_sorted_least
             (fun a b => cell "price_kwh" b ≤ cell "price_kwh" a)
             (sort_by price_geb df) hi r);
      [intros a; apply Qcle_refl|apply sort_by_price_geb_sorted|done|].
    by apply sort_by_elem_of.
Qed.

Lemma ranked_tables_heads_witness :
  let df := to_kwh "netherlands_nl" (rows flat_then_peak) in
  (1 <= length (nsmallest 3 df) <= 3)%nat ∧ (1 <= length (nlargest 3 df) <= 3)%nat.
Proof.
  intros df.
  destruct (ranked_tables_heads df 3) as (H1 & H2 & _); [by_decide..|].
  by split.
Defined.

(** ** The sort of line 37 *)

Lemma insert_by_least {A} (leb : A -> A -> bool) x l :
  Forall (fun y => leb x y = true) l -> insert_by leb x l = x :: l.
Proof. destruct 1 as [|y l Hy _]; simpl; [done|]. by rewrite Hy. Qed.

Lemma sort_by_sorted_id {A} (leb : A -> A -> bool) l :
  StronglySorted (fun a b => leb a b = true) l -> sort_by leb l = l.
Proof.
  induction 1 as [|x l Hl IH Hx]; simpl; [done|].
  rewrite IH. by apply insert_by_least.
Qed.

Lemma sort_by_idemp {A} (leb : A -> A -> bool) l :
  (forall x y, leb x y = true ∨ leb y x = true) ->
  (forall x y z, leb x y = true -> leb y z = true -> leb x z = true) ->
  sort_by leb (sort_by leb l) = sort_by leb l.
Proof. intros Ht Htr. by apply sort_by_sorted_id, sort_by_sorted. Qed.

(** X16.  On the loaded table the sort of line 37 changes nothing that the
    script reads: [gold_ts] has the columns and the rows of the loaded
    table, and the same sequence of timestamps, which is already in
    order. *)
Theorem gold_ts_of_loaded (to_datetime : string -> option Z) (raw : RawFrame) :
  let gold_df := load_data to_datetime raw in
  price_cols (gold_ts gold_df) = raw_columns raw ∧
  rows (gold_ts gold_df) ≡ₚ rows gold_df ∧
  date_cet <$> rows (gold_ts gold_df) = date_cet <$> rows gold_df ∧
  available_dates (gold_ts gold_df) = available_dates gold_df.
Proof.
  intros gold_df.
  assert (E : rows (gold_ts gold_df) = rows gold_df).
  { unfold gold_ts, gold_df, load_data. simpl.
    apply sort_by_idemp; [apply date_leb_total|apply date_leb_trans]. }
  split; [done|]. split; [by rewrite E|]. split; [by rewrite E|].
  unfold available_dates. by rewrite E.
Qed.

(** ** Runs of one session (lines 25-36) *)

Lemma page_select_Err gold_df country date best_n e :
  select_slice (gold_ts gold_df) country date = Err e ->
  page gold_df country date best_n = Err e.
Proof. intros H. unfold page. by rewrite H. Qed.

Lemma page_Err_inv gold_df country date best_n e :
  page gold_df country date best_n = Err e ->
  select_slice (gold_ts gold_df) country date = Err e ∨
  (e = ZeroDivisionError ∧
   exists df, select_slice (gold_ts gold_df) country date = Ok df).
Proof.
  unfold page.
  destruct (select_slice (gold_ts gold_df) country date) as [df|e'] eqn:Hsel;
    cbn [mbind result_bind]; [|intros [= <-]; by left].
  pose proof (select_slice_Ok_inv _ _ _ _ Hsel) as (_ & Hne & _).
  apply last_is_Some in Hne as [r Hr].
  unfold current_price_kwh. rewrite (current_row_to_kwh _ _ _ Hr).
  cbn [mbind result_bind].
  destruct (pct_vs_avg _ _) as [d|e'] eqn:Hpct; cbn [mbind result_bind]; [done|].
  intros [= <-]. apply pct_vs_avg_Err_inv in Hpct as [-> _]. right. eauto.
Qed.

(** X17.  A run stops for the missing file exactly when the file is missing,
    also when the cache still holds its table, and then leaves the
    cache as it was. *)
Theorem run_data_not_found (to_datetime : string -> option Z)
    (files : gmap string RawFrame) (path : string)
    (cache : gmap string DataFrame)
    (country : string) (date : Z) (best_n : nat) :
  ((run to_datetime files path cache country date best_n).1
     = Err DataNotFoundError ↔ files !! path = None) ∧
  (files !! path = None ->
   (run to_datetime files path cache country date best_n).2 = cache).
Proof.
  unfold run. destruct (files !! path) as [raw|] eqn:E; [|done].
  split; [|done]. split; [|done].
  destruct (load_data_cached to_datetime raw path cache) as [gold_df cache'].
  simpl. intros H.
  apply page_Err_inv in H as [H|[? _]]; [|done].
  by apply select_slice_Err_inv in H as [[? _]|[? _]].
Qed.

Lemma run_data_not_found_witness :
  (run sample_to_datetime ∅ "Data/gold.csv"
     {[ "Data/gold.csv"%string := flat_then_peak ]} "netherlands_nl" 0 3).2
  = {[ "Data/gold.csv"%string := flat_then_peak ]}.
Proof. by apply (proj2 (run_data_not_found sample_to_datetime ∅ _ _ _ _ _)). Defined.

(** X18.  Once a run has found the file, the table it worked on is in the
    cache under the file's path, the entries of other paths are as
    before, and every later run of the session shows the page of that
    same table, whatever the selections are and whatever the file holds
    by then. *)
Theorem run_caches_table (to_datetime : string -> option Z)
    (files files' : gmap string RawFrame) (path : string)
    (cache : gmap string DataFrame) (raw raw' : RawFrame)
    (country country' : string) (date date' : Z) (best_n best_n' : nat) :
  files !! path = Some raw -> files' !! path = Some raw' ->
  let cache' := (run to_datetime files path cache country date best_n).2 in
  exists gold_df,
    loaded_table to_datetime files path cache = Some gold_df ∧
    cache' !! path = Some gold_df ∧
    (forall p, p ≠ path -> cache' !! p = cache !! p) ∧
    (run to_datetime files' path cache' country' date' best_n').1
    = page gold_df country' date' best_n' ∧
    (run to_datetime files' path cache' country' date' best_n').2 = cache'.
Proof.
  intros H H'. unfold loaded_table, run, load_data_cached. rewrite H, H'.
  destruct (cache !! path) as [df|] eqn:E; simpl.
  - exists df. rewrite E. done.
  - exists (load_data to_datetime raw). rewrite lookup_insert_eq.
    split; [done|]. split; [done|]. split; [|done].
    intros p Hp. by rewrite lookup_insert_ne.
Qed.

Lemma run_caches_table_witness :
  let path := "Data/gold.csv"%string in
  let cache' :=
    (run sample_to_datetime {[ path := plain_raw ]} path ∅
       "netherlands_nl" (20023 * day_ns) 3).2 in
  exists gold_df, cache' !! path = Some gold_df ∧
    (run sample_to_datetime {[ path := clock_change_raw ]} path cache'
       "netherlands_nl" (20023 * day_ns) 1).1
    = page gold_df "netherlands_nl" (20023 * day_ns) 1.
Proof.
  intros path cache'.
  destruct (run_caches_table sample_to_datetime
              {[ path := plain_raw ]} {[ path := clock_change_raw ]} path ∅
              plain_raw clock_change_raw
              "netherlands_nl" "netherlands_nl" (20023 * day_ns) (20023 * day_ns) 3 1)
    as (gold_df & _ & Hc & _ & Hrun & _); [by vm_compute..|].
  exists gold_df. split; [exact Hc|exact Hrun].
Defined.

(** ** The page shown first (lines 43-64) *)

Lemma select_slice_empty_iff ts country date :
  country ∈ columns ts ->
  select_slice ts country date = Err EmptySliceError ↔
  forall r, r ∈ rows ts -> normalize (date_cet r) = date -> cells r !! country = None.
Proof.
  intros Hcol. unfold select_slice. rewrite (today_Ok ts country date Hcol).
  cbn [mbind result_bind]. set (l := dropna country _).
  assert (Hl : forall r', r' ∈ l ↔
    exists r p, r ∈ rows ts ∧ normalize (date_cet r) = date ∧
      cells r !! country = Some p ∧
      r' = {| date_cet := date_cet r; cells := {[ country := p ]} |})
    by (intros r'; apply elem_of_today_rows).
  split.
  - intros H r Hr Hd. destruct l as [|x l'] eqn:E; [|done].
    destruct (cells r !! country) as [p|] eqn:Hp; [|done].
    assert (Hin : {| date_cet := date_cet r; cells := {[ country := p ]} |} ∈ @nil Row)
      by (apply Hl; by exists r, p).
    by apply elem_of_nil in Hin.
  - intros H. destruct l as [|x l'] eqn:E; [done|]. exfalso.
    destruct (proj1 (Hl x)) as (r & p & Hr & Hd & Hp & _); [apply list_elem_of_here|].
    rewrite (H r Hr Hd) in Hp. done.
Qed.

(** X19.  With the market and the date shown first, the page never ends in
    [KeyError] or [IndexError]; the table has a row on that date; and
    the page says "No data for selected date" exactly when no row of
    that date has a price for that market. *)
Theorem first_page (gold_df : DataFrame) (country : string) (date : Z) (best_n : nat) :
  default_country (gold_ts gold_df) = Some country ->
  default_date (gold_ts gold_df) = Some date ->
  page gold_df country date best_n ≠ Err KeyError ∧
  page gold_df country date best_n ≠ Err IndexError ∧
  (exists r, r ∈ rows (gold_ts gold_df) ∧ normalize (date_cet r) = date) ∧
  (page gold_df country date best_n = Err EmptySliceError ↔
   forall r, r ∈ rows (gold_ts gold_df) -> normalize (date_cet r) = date ->
     cells r !! country = None).
Proof.
  intros Hc Hd.
  assert (Hcol : country ∈ columns (gold_ts gold_df)).
  { unfold default_country, default_country_index, selectbox_default, price_cols in Hc.
    destruct (decide (_ ∈ _)) as [Hin|Hnot].
    - destruct (py_index_elem_of _ _ Hin) as (i & Hi & Hl & _).
      rewrite Hi in Hc. change (columns (gold_ts gold_df) !! i = Some country) in Hc.
      rewrite Hl in Hc. by injection Hc as <-.
    - change (columns (gold_ts gold_df) !! 0%nat = Some country) in Hc.
      by eapply list_elem_of_lookup_2. }
  split; [|split; [|split]].
  - intros H. apply page_Err_inv in H as [H|[? _]]; [|done].
    by apply select_slice_Err_inv in H as [[_ ?]|[? _]].
  - intros H. apply page_Err_inv in H as [H|[? _]]; [|done].
    by apply select_slice_Err_inv in H as [[? _]|[? _]].
  - rewrite default_date_last in Hd. apply last_Some_elem_of in Hd.
    by apply elem_of_available_dates in Hd.
  - rewrite <-(select_slice_empty_iff _ _ _ Hcol). split.
    + intros H. by apply page_Err_inv in H as [H|[? _]].
    + apply page_select_Err.
Qed.

Lemma first_page_witness :
  page missing_day "netherlands_nl" 0 3 = Err EmptySliceError ↔
  forall r, r ∈ rows (gold_ts missing_day) -> normalize (date_cet r) = 0%Z ->
    cells r !! "netherlands_nl"%string = None.
Proof.
  apply (first_page missing_day "netherlands_nl" 0 3); by vm_compute.
Defined.

(** ** Baking costs (lines 83-88 and 112) *)

(** X20.  On a full page each baking cost is 2.5 (kWh) times its price
    in EUR/kWh, the latest hour's and the day's average, which the panels
    show times 100; the average cost is not 0; and baking now costs no
    more than baking at the day's average when the latest price is no
    higher than the average. *)
Theorem bake_costs (gold_df : DataFrame) (country : string) (date : Z)
    (best_n : nat) (o : Outputs) :
  page gold_df country date best_n = Ok o ->
  exists df x, select_slice (gold_ts gold_df) country date = Ok df ∧
    current_price_kwh (to_kwh country df) = Ok x ∧
    out_price_now o = x * hundred ∧
    out_price_avg o = daily_avg_kwh (to_kwh country df) * hundred ∧
    out_bake_cost_now o = Q2Qc (5 # 2) * x ∧
    out_bake_cost_avg o = Q2Qc (5 # 2) * daily_avg_kwh (to_kwh country df) ∧
    out_bake_cost_avg o ≠ 0 ∧
    (x ≤ daily_avg_kwh (to_kwh country df) ->
     out_bake_cost_now o ≤ out_bake_cost_avg o).
Proof.
  unfold page. intros H.
  destruct (select_slice (gold_ts gold_df) country date) as [df|e]; [|done].
  cbn [mbind result_bind] in H.
  destruct (current_price_kwh _) as [x|e] eqn:Hx; [|done].
  cbn [mbind result_bind] in H.
  destruct (pct_vs_avg _ _) as [d|e] eqn:Hpct; [|done]. cbn [mbind result_bind] in H.
  injection H as <-.
  cbn [out_bake_cost_now out_bake_cost_avg out_price_now out_price_avg].
  apply pct_vs_avg_Ok_inv in Hpct as [Hb _].
  exists df, x. split; [done|]. split; [done|]. split; [done|]. split; [done|].
  assert (Hk : BAKE_KWH = Q2Qc (5 # 2)) by (by apply Qc_is_canon).
  assert (Hk0 : Q2Qc (5 # 2) ≠ 0) by by_decide.
  rewrite Hk. split; [done|]. split; [done|]. split.
  - intros E. apply Qcmult_integral in E as [E|E]; done.
  - apply Qcmult_le_mono_nonneg_l. by_decide.
Qed.

Lemma bake_costs_witness :
  exists o df x, page flat_then_peak "netherlands_nl" 0 3 = Ok o ∧
    current_price_kwh (to_kwh "netherlands_nl" df) = Ok x ∧
    out_bake_cost_now o = Q2Qc (5 # 2) * x.
Proof.
  eexists.
  edestruct (bake_costs flat_then_peak "netherlands_nl" 0 3)
    as (df & x & _ & Hx & _ & _ & Hc & _); [by vm_compute|].
  exists df, x. split; [reflexivity|]. by split.
Defined.
